(** * bzs.sqlfs: the permission-safe, serialized facade of the SQL filesystem

    Shallow embedding of [bzs/sqlfs/__init__.py].  The module wraps three
    collaborators ([Filesystem], [FilesystemPermissions], [file_stream]) in
    one process-wide [threading.Lock].  The collaborators are interfaces
    here (an [Engine]); the facade functions are written in a small monad
    that threads the lock, the tree and a log of the calls made, and that
    propagates Python exceptions. *)

From Stdlib Require Import String Ascii List Bool ZArith Lia.
Import ListNotations.
Local Open Scope string_scope.
Local Open Scope list_scope.

(** ** Python values crossing the facade *)

(** Exceptions that can travel through the facade.  [ValueError] is what
    [list.remove] raises, [RuntimeError] what [Lock.release] raises on a
    free lock; the other three are the collaborators' failures. *)
Inductive exn : Type :=
| ValueError
| RuntimeError
| NotFound
| Conflict
| Invalid.

(** How a Python call ends: it returns, it raises, or it never comes back
    because it waits on a lock that nobody will release. *)
Inductive outcome (A : Type) : Type :=
| Returned (a : A)
| Raised (e : exn)
| Blocked.
Arguments Returned {A} a.
Arguments Raised {A} e.
Arguments Blocked {A}.

(** What a collaborator call yields: a value or an exception. *)
Inductive result (A : Type) : Type :=
| Ok (a : A)
| Err (e : exn).
Arguments Ok {A} a.
Arguments Err {A} e.

(** A user object.  Only [user.handle] is read by the facade.  Instances
    of a plain class are truthy, so [if user] is the test [user is not
    None]: the optional user is an [option User]. *)
Record User : Type := mkUser { handle : string }.

(** Modelled from the spec: the object that [file_stream.FileStream]
    builds, whose module is not part of the sources at hand.  The stream
    records its mode, estimated length, object id and staged bytes.  The
    constructor itself is a collaborator ([stream_open] below): it is
    handed the database and can fail. *)
Record FileStream : Type := mkFileStream {
  stream_mode : string;
  stream_est_length : Z;
  stream_obj_oid : Z;
  stream_obj_data : list Byte.byte
}.

(** The values the [Filesystem] methods hand back and the facade passes
    on.  [VEmptyFileStream] is the sentinel [file_stream.EmptyFileStream]. *)
Inductive value : Type :=
| VNone
| VBool (b : bool)
| VHandle (path : string)
| VBytes (data : list Byte.byte)
| VEmptyFileStream.

(** [ret_result != None] *)
Definition not_None (v : value) : bool :=
  match v with
  | VNone => false
  | _ => true
  end.

(** One entry of [Filesystem.list_directory]: a dict with the keys
    ['file-name'], ['file-size'], ['is-dir'], ['owner'], ['upload-time'],
    and possibly ['writable']. *)
Record Item : Type := mkItem {
  file_name : string;
  file_size : Z;
  is_dir : bool;
  owner : string;
  upload_time : Z;
  writable_flag : option bool
}.

(** [item['writable'] = b] *)
Definition set_writable (item : Item) (b : bool) : Item :=
  {| file_name := file_name item;
     file_size := file_size item;
     is_dir := is_dir item;
     owner := owner item;
     upload_time := upload_time item;
     writable_flag := Some b |}.

(** ** Collaborator interface *)

(** One user's entry in a node's permission dict, the ['rwx'] of the
    [change_permissions] docstring: read, write, effect on sub-files. *)
Record Perm : Type := mkPerm {
  perm_read : bool;
  perm_write : bool;
  perm_propagate : bool
}.

(** The permission probes of [FilesystemPermissions], each with the
    optional [parent=] argument that [list_directory] uses. *)
Inductive perm_query : Type :=
| Readable (path : string) (parent : option string)
| Writable (path : string) (parent : option string)
| WritableSelf (path : string) (parent : option string)
| WritableAll (path : string) (parent : option string)
| ReadWritable (path : string) (parent : option string)
| ReadWritableAll (path : string) (parent : option string).

(** The structural methods of [Filesystem] that the facade calls. *)
Inductive fs_call : Type :=
| Fs_create_file (path_parent file_name usr_handle : string)
                 (content_stream : FileStream)
| Fs_create_directory (path_parent file_name usr_handle : string)
| Fs_copy_with_handle (source target_parent : string) (new_owner : option string)
| Fs_move_with_handle (source target_parent : string)
| Fs_remove (path : string)
| Fs_rename (path file_name : string)
| Fs_change_ownership (path owner : string)
| Fs_change_permissions (path : string) (permissions : list (string * Perm))
                        (recursive : bool)
| Fs_expunge_user_ownership (handle : string)
| Fs_get_content (path : string).

(** [Filesystem], [FilesystemPermissions] and the constructor of
    [file_stream.FileStream] over some state [Tree], the database behind
    them.  All three live outside the module; what the facade relies on
    is their contract in the specification: a probe evaluates the tree and
    answers with a boolean, leaving the tree alone, while the structural
    methods, [list_directory] and [copy_reown] may change the tree and may
    raise.  [stream_open mode est_length obj_oid obj_data] is the call
    [FileStream(mode=, est_length=, obj_oid=, obj_data=, database=)]: it
    consults the database, does nothing to the filesystem, and may
    raise. *)
Class Engine (Tree : Type) : Type := {
  perm_eval : perm_query -> User -> Tree -> bool;
  fs_exec : fs_call -> Tree -> result value * Tree;
  fs_list_directory : string -> Tree -> result (list Item) * Tree;
  perm_copy_reown : value -> User -> Tree -> result unit * Tree;
  stream_open : string -> Z -> Z -> list Byte.byte -> Tree -> result FileStream
}.

(** ** The facade monad *)

(** What the facade did, in order. *)
Inductive event : Type :=
| EvAcquire
| EvRelease
| EvPerm (q : perm_query) (u : User)
| EvCall (c : fs_call)
| EvList (path : string)
| EvReown (v : value) (u : User).

Definition is_lock_event (ev : event) : bool :=
  match ev with
  | EvAcquire | EvRelease => true
  | _ => false
  end.

Definition is_perm_event (ev : event) : bool :=
  match ev with
  | EvPerm _ _ => true
  | _ => false
  end.

(** Calls that can change the tree. *)
Definition is_engine_event (ev : event) : bool :=
  match ev with
  | EvCall _ | EvList _ | EvReown _ _ => true
  | _ => false
  end.

Record World (Tree : Type) : Type := mkWorld {
  FilesystemLock : bool;
  tree : Tree;
  trace : list event
}.
Arguments mkWorld {Tree} _ _ _.
Arguments FilesystemLock {Tree} _.
Arguments tree {Tree} _.
Arguments trace {Tree} _.

Definition M (Tree A : Type) : Type := World Tree -> outcome A * World Tree.

Definition ret {Tree A : Type} (a : A) : M Tree A :=
  fun w => (Returned a, w).

Definition bind {Tree A B : Type} (m : M Tree A) (k : A -> M Tree B) : M Tree B :=
  fun w =>
    match m w with
    | (Returned a, w') => k a w'
    | (Raised e, w') => (Raised e, w')
    | (Blocked, w') => (Blocked, w')
    end.

Declare Scope facade_scope.
Delimit Scope facade_scope with facade.
Notation "x <- m ;; k" := (bind m (fun x => k))
  (at level 61, m at next level, right associativity) : facade_scope.
Notation "m ;; k" := (bind m (fun _ => k))
  (at level 61, right associativity) : facade_scope.
Local Open Scope facade_scope.

Definition log {Tree : Type} (ev : event) (w : World Tree) : World Tree :=
  mkWorld (FilesystemLock w) (tree w) (trace w ++ [ev]).

(** [FilesystemLock.acquire()]: waits for ever on a lock that is held. *)
Definition acquire {Tree : Type} : M Tree unit :=
  fun w =>
    if FilesystemLock w then (Blocked, w)
    else (Returned tt, mkWorld true (tree w) (trace w ++ [EvAcquire])).

(** [FilesystemLock.release()]: a [RuntimeError] on a free lock. *)
Definition release {Tree : Type} : M Tree unit :=
  fun w =>
    if FilesystemLock w
    then (Returned tt, mkWorld false (tree w) (trace w ++ [EvRelease]))
    else (Raised RuntimeError, w).

Definition lift_result {Tree A : Type} (ev : event)
    (f : Tree -> result A * Tree) : M Tree A :=
  fun w =>
    let w1 := log ev w in
    match f (tree w1) with
    | (Ok a, t') => (Returned a, mkWorld (FilesystemLock w1) t' (trace w1))
    | (Err e, t') => (Raised e, mkWorld (FilesystemLock w1) t' (trace w1))
    end.

(** ** String helpers of the Python runtime *)

Definition slash : ascii := "/"%char.

(** [path.split('/')] *)
Fixpoint split_slash (path : string) : list string :=
  match path with
  | EmptyString => [EmptyString]
  | String c rest =>
      if Ascii.eqb c slash then EmptyString :: split_slash rest
      else match split_slash rest with
           | seg :: segs => String c seg :: segs
           | [] => [String c EmptyString]
           end
  end.

(** [l.remove(x)]: drops the first occurrence, [None] for the
    [ValueError] raised when there is none. *)
Fixpoint list_remove (x : string) (l : list string) : option (list string) :=
  match l with
  | [] => None
  | y :: rest =>
      if String.eqb y x then Some rest
      else match list_remove x rest with
           | Some rest' => Some (y :: rest')
           | None => None
           end
  end.

(** [get_file_name(path)] *)
Definition get_file_name (path : string) : outcome string :=
  let path := split_slash path in
  match list_remove EmptyString path with
  | None => Raised ValueError
  | Some path =>
      let path := EmptyString :: path in
      Returned (last path EmptyString)
  end.

(** ** The facade functions *)

Section Facade.
Context {Tree : Type} {E : Engine Tree}.

Definition perm (q : perm_query) (u : User) : M Tree bool :=
  fun w => (Returned (perm_eval q u (tree w)), log (EvPerm q u) w).

Definition invoke (c : fs_call) : M Tree value :=
  lift_result (EvCall c) (fs_exec c).

Definition list_dir (path : string) : M Tree (list Item) :=
  lift_result (EvList path) (fs_list_directory path).

Definition copy_reown (v : value) (u : User) : M Tree unit :=
  lift_result (EvReown v u) (perm_copy_reown v u).

(** [user and not FilesystemPermissions.q(..., user)]: the probe is not
    evaluated when [user] is [None]. *)
Definition denied (user : option User) (q : perm_query) : M Tree bool :=
  match user with
  | None => ret false
  | Some u => b <- perm q u ;; ret (negb b)
  end.

Definition usr_handle_of (user : option User) : string :=
  match user with
  | Some u => handle u
  | None => "public"
  end.

(** [file_stream.FileStream(..., database=db.Database)] *)
Definition new_stream (mode : string) (est_length obj_oid : Z)
    (obj_data : list Byte.byte) : M Tree FileStream :=
  fun w =>
    match stream_open mode est_length obj_oid obj_data (tree w) with
    | Ok f => (Returned f, w)
    | Err e => (Raised e, w)
    end.

Definition create_file_handle (mode : string) (est_length obj_oid : Z)
    (obj_data : list Byte.byte) : M Tree FileStream :=
  acquire ;;
  ret_val <- new_stream mode est_length obj_oid obj_data ;;
  release ;;
  ret ret_val.

Definition create_file (path_parent file_name : string)
    (content_stream : FileStream) (user : option User) : M Tree value :=
  acquire ;;
  d <- denied user (Writable path_parent None) ;;
  if d then release ;; ret (VBool false) else
  let usr_handle := usr_handle_of user in
  ret_result <- invoke (Fs_create_file path_parent file_name usr_handle content_stream) ;;
  release ;;
  ret ret_result.

Definition create_directory (path_parent file_name : string)
    (user : option User) : M Tree value :=
  acquire ;;
  d <- denied user (Writable path_parent None) ;;
  if d then release ;; ret (VBool false) else
  let usr_handle := usr_handle_of user in
  ret_result <- invoke (Fs_create_directory path_parent file_name usr_handle) ;;
  release ;;
  ret ret_result.

Definition reown_if_user (ret_result : value) (user : option User) : M Tree unit :=
  match user with
  | Some u => copy_reown ret_result u
  | None => ret tt
  end.

Definition copy (source target_parent : string) (user : option User) : M Tree value :=
  acquire ;;
  d <- denied user (Readable source None) ;;
  if d then release ;; ret (VBool false) else
  d <- denied user (Writable target_parent None) ;;
  if d then release ;; ret (VBool false) else
  ret_result <- invoke (Fs_copy_with_handle source target_parent None) ;;
  reown_if_user ret_result user ;;
  release ;;
  ret (VBool (not_None ret_result)).

Definition move (source target_parent : string) (user : option User) : M Tree value :=
  acquire ;;
  d <- denied user (Readable source None) ;;
  if d then release ;; ret (VBool false) else
  d <- denied user (WritableAll source None) ;;
  if d then release ;; ret (VBool false) else
  d <- denied user (WritableSelf source None) ;;
  if d then release ;; ret (VBool false) else
  d <- denied user (Writable target_parent None) ;;
  if d then release ;; ret (VBool false) else
  ret_result <- invoke (Fs_move_with_handle source target_parent) ;;
  reown_if_user ret_result user ;;
  release ;;
  ret (VBool (not_None ret_result)).

Definition remove (path : string) (user : option User) : M Tree value :=
  acquire ;;
  d <- denied user (Readable path None) ;;
  if d then release ;; ret (VBool false) else
  d <- denied user (WritableSelf path None) ;;
  if d then release ;; ret (VBool false) else
  d <- denied user (WritableAll path None) ;;
  if d then release ;; ret (VBool false) else
  ret_result <- invoke (Fs_remove path) ;;
  release ;;
  ret ret_result.

Definition rename (path file_name : string) (user : option User) : M Tree value :=
  acquire ;;
  d <- denied user (ReadWritable path None) ;;
  if d then release ;; ret (VBool false) else
  d <- denied user (WritableSelf path None) ;;
  if d then release ;; ret (VBool false) else
  ret_result <- invoke (Fs_rename path file_name) ;;
  release ;;
  ret ret_result.

Definition change_ownership (path owner : string) (user : option User) : M Tree value :=
  acquire ;;
  d <- denied user (ReadWritableAll path None) ;;
  if d then release ;; ret (VBool false) else
  d <- denied user (WritableSelf path None) ;;
  if d then release ;; ret (VBool false) else
  ret_result <- invoke (Fs_change_ownership path owner) ;;
  release ;;
  ret ret_result.

Definition change_permissions (path : string)
    (permissions : list (string * Perm))
    (recursive : bool) (user : option User) : M Tree value :=
  acquire ;;
  d <- denied user (ReadWritableAll path None) ;;
  if d then release ;; ret (VBool false) else
  d <- denied user (WritableSelf path None) ;;
  if d then release ;; ret (VBool false) else
  ret_result <- invoke (Fs_change_permissions path permissions recursive) ;;
  release ;;
  ret ret_result.

Definition expunge_user_ownership (handle : string) : M Tree value :=
  acquire ;;
  ret_result <- invoke (Fs_expunge_user_ownership handle) ;;
  release ;;
  ret ret_result.

(** The [for item in fil_ls] loop of [list_directory]; the list returned
    is [ret_result] in the order of the appends. *)
Fixpoint list_directory_loop (path : string) (user : option User)
    (fil_ls : list Item) : M Tree (list Item) :=
  match fil_ls with
  | [] => ret []
  | item :: rest =>
      d <- denied user (Readable (file_name item) (Some path)) ;;
      if d then list_directory_loop path user rest else
      item' <- match user with
               | Some u =>
                   b <- perm (WritableSelf (file_name item) (Some path)) u ;;
                   ret (set_writable item b)
               | None => ret item
               end ;;
      ret_result <- list_directory_loop path user rest ;;
      ret (item' :: ret_result)
  end.

Definition list_directory (path : string) (user : option User) : M Tree (list Item) :=
  acquire ;;
  fil_ls <- list_dir path ;;
  ret_result <- list_directory_loop path user fil_ls ;;
  release ;;
  ret ret_result.

Definition get_content (path : string) (user : option User) : M Tree value :=
  acquire ;;
  d <- denied user (Readable path None) ;;
  if d then release ;; ret VEmptyFileStream else
  ret_result <- invoke (Fs_get_content path) ;;
  release ;;
  ret ret_result.

Definition readable (path : string) (user : option User) : M Tree bool :=
  acquire ;;
  d <- denied user (Readable path None) ;;
  if d then release ;; ret false else
  release ;;
  ret true.

Definition writable (path : string) (user : option User) : M Tree bool :=
  acquire ;;
  d <- denied user (Writable path None) ;;
  if d then release ;; ret false else
  release ;;
  ret true.

Definition writable_self (path : string) (user : option User) : M Tree bool :=
  acquire ;;
  d <- denied user (WritableSelf path None) ;;
  if d then release ;; ret false else
  release ;;
  ret true.

(** *** The facade as a whole *)

(** What a facade function hands back. *)
Inductive answer : Type :=
| AValue (v : value)
| AItems (items : list Item)
| AStream (f : FileStream)
| ABool (b : bool)
| AName (x : string).

(** One call of an exported function, with its arguments. *)
Inductive facade_call : Type :=
| F_create_file_handle (mode : string) (est_length obj_oid : Z)
                       (obj_data : list Byte.byte)
| F_create_file (path_parent file_name : string) (content_stream : FileStream)
                (user : option User)
| F_create_directory (path_parent file_name : string) (user : option User)
| F_copy (source target_parent : string) (user : option User)
| F_move (source target_parent : string) (user : option User)
| F_remove (path : string) (user : option User)
| F_rename (path file_name : string) (user : option User)
| F_change_ownership (path owner : string) (user : option User)
| F_change_permissions (path : string) (permissions : list (string * Perm))
                       (recursive : bool) (user : option User)
| F_expunge_user_ownership (handle : string)
| F_list_directory (path : string) (user : option User)
| F_get_content (path : string) (user : option User)
| F_get_file_name (path : string)
| F_readable (path : string) (user : option User)
| F_writable (path : string) (user : option User)
| F_writable_self (path : string) (user : option User).

Definition answering {A : Type} (f : A -> answer) (m : M Tree A) : M Tree answer :=
  a <- m ;; ret (f a).

Definition pure_call {A : Type} (o : outcome A) : M Tree A :=
  fun w => (o, w).

Definition run (c : facade_call) : M Tree answer :=
  match c with
  | F_create_file_handle mode est_length obj_oid obj_data =>
      answering AStream (create_file_handle mode est_length obj_oid obj_data)
  | F_create_file p x s user => answering AValue (create_file p x s user)
  | F_create_directory p x user => answering AValue (create_directory p x user)
  | F_copy s t user => answering AValue (copy s t user)
  | F_move s t user => answering AValue (move s t user)
  | F_remove p user => answering AValue (remove p user)
  | F_rename p x user => answering AValue (rename p x user)
  | F_change_ownership p o user => answering AValue (change_ownership p o user)
  | F_change_permissions p ps r user =>
      answering AValue (change_permissions p ps r user)
  | F_expunge_user_ownership h => answering AValue (expunge_user_ownership h)
  | F_list_directory p user => answering AItems (list_directory p user)
  | F_get_content p user => answering AValue (get_content p user)
  | F_get_file_name p => answering AName (pure_call (get_file_name p))
  | F_readable p user => answering ABool (readable p user)
  | F_writable p user => answering ABool (writable p user)
  | F_writable_self p user => answering ABool (writable_self p user)
  end.

(** The user argument of the functions that take one. *)
Definition user_of (c : facade_call) : option (option User) :=
  match c with
  | F_create_file _ _ _ user | F_create_directory _ _ user
  | F_copy _ _ user | F_move _ _ user | F_remove _ user | F_rename _ _ user
  | F_change_ownership _ _ user | F_change_permissions _ _ _ user
  | F_list_directory _ user | F_get_content _ user
  | F_readable _ user | F_writable _ user | F_writable_self _ user => Some user
  | F_create_file_handle _ _ _ _ | F_expunge_user_ownership _
  | F_get_file_name _ => None
  end.

(** The eight functions that change the tree on behalf of a user. *)
Definition is_mutation (c : facade_call) : bool :=
  match c with
  | F_create_file _ _ _ _ | F_create_directory _ _ _
  | F_copy _ _ _ | F_move _ _ _ | F_remove _ _ | F_rename _ _ _
  | F_change_ownership _ _ _ | F_change_permissions _ _ _ _ => true
  | _ => false
  end.

(** The grants the specification requires of a user, per function, in
    the words of its interface section. *)
Definition required_checks (c : facade_call) : list perm_query :=
  match c with
  | F_create_file p _ _ _ | F_create_directory p _ _ => [Writable p None]
  | F_copy s t _ => [Readable s None; Writable t None]
  | F_move s t _ =>
      [Readable s None; WritableAll s None; WritableSelf s None; Writable t None]
  | F_remove p _ => [Readable p None; WritableSelf p None; WritableAll p None]
  | F_rename p _ _ => [ReadWritable p None; WritableSelf p None]
  | F_change_ownership p _ _ | F_change_permissions p _ _ _ =>
      [ReadWritableAll p None; WritableSelf p None]
  | F_get_content p _ | F_readable p _ => [Readable p None]
  | F_writable p _ => [Writable p None]
  | F_writable_self p _ => [WritableSelf p None]
  | _ => []
  end.

(** Some required grant is refused to [u] in the tree [t]. *)
Definition refused (c : facade_call) (u : User) (t : Tree) : bool :=
  existsb (fun q => negb (perm_eval q u t)) (required_checks c).

End Facade.

(** ** A tree engine and a permission engine after the specification *)

Module SpecEngine.

Set Warnings "-register-all".

(** Modelled from the spec: the Node of the data model, whose classes
    ([file_system.Filesystem], [file_storage.FileStorage]) are not part
    of the sources at hand.  A node carries its name, directory flag,
    owner, content reference, size, upload time and per-user permission
    entries; the parent link is the nesting itself, so the graph is a
    tree by construction. *)
Inductive Node : Type :=
| mkNode (name : string) (is_directory : bool) (node_owner : string)
         (content_ref : option Z) (size : Z) (uploaded : Z)
         (permissions : list (string * Perm)) (children : list Node).

Definition n_name (n : Node) : string :=
  match n with mkNode x _ _ _ _ _ _ _ => x end.
Definition n_is_directory (n : Node) : bool :=
  match n with mkNode _ x _ _ _ _ _ _ => x end.
Definition n_owner (n : Node) : string :=
  match n with mkNode _ _ x _ _ _ _ _ => x end.
Definition n_content_ref (n : Node) : option Z :=
  match n with mkNode _ _ _ x _ _ _ _ => x end.
Definition n_size (n : Node) : Z :=
  match n with mkNode _ _ _ _ x _ _ _ => x end.
Definition n_uploaded (n : Node) : Z :=
  match n with mkNode _ _ _ _ _ x _ _ => x end.
Definition n_permissions (n : Node) : list (string * Perm) :=
  match n with mkNode _ _ _ _ _ _ x _ => x end.
Definition n_children (n : Node) : list Node :=
  match n with mkNode _ _ _ _ _ _ _ x => x end.

Definition with_children (n : Node) (cs : list Node) : Node :=
  match n with mkNode a b c d e f g _ => mkNode a b c d e f g cs end.
Definition with_name (n : Node) (x : string) : Node :=
  match n with mkNode _ b c d e f g h => mkNode x b c d e f g h end.
Definition with_permissions (n : Node) (ps : list (string * Perm)) : Node :=
  match n with mkNode a b c d e f _ h => mkNode a b c d e f ps h end.

(** Modelled from the spec: the state behind the two engines, the tree
    below its root and the Content Store (content id to payload), with
    the next free content id and a clock for upload times. *)
Record FsState : Type := mkFsState {
  fs_root : Node;
  fs_contents : list (Z * list Byte.byte);
  fs_next_ref : Z;
  fs_clock : Z
}.

Definition with_root (t : FsState) (r : Node) : FsState :=
  mkFsState r (fs_contents t) (fs_next_ref t) (fs_clock t).

(** Paths are slash-delimited walks from the root; empty segments do
    not name anything. *)
Definition segments (path : string) : list string :=
  filter (fun seg => negb (String.eqb seg EmptyString)) (split_slash path).

(** The entry [file_name] below [parent] when [parent=] is given. *)
Definition target_segments (path : string) (parent : option string) : list string :=
  match parent with
  | Some d => segments d ++ segments path
  | None => segments path
  end.

Definition find_child (x : string) (cs : list Node) : option Node :=
  find (fun c => String.eqb (n_name c) x) cs.

Fixpoint resolve (segs : list string) (n : Node) : option Node :=
  match segs with
  | [] => Some n
  | s :: rest =>
      match find_child s (n_children n) with
      | Some c => resolve rest c
      | None => None
      end
  end.

(** The node at the end of the walk together with its immediate parent
    ([None] for the root). *)
Fixpoint resolve_link (segs : list string) (parent : option Node) (n : Node)
    : option (option Node * Node) :=
  match segs with
  | [] => Some (parent, n)
  | s :: rest =>
      match find_child s (n_children n) with
      | Some c => resolve_link rest (Some n) c
      | None => None
      end
  end.

Fixpoint assoc {A : Type} (k : string) (l : list (string * A)) : option A :=
  match l with
  | [] => None
  | (k', a) :: rest => if String.eqb k' k then Some a else assoc k rest
  end.

(** A user without an entry on a node is denied by default. *)
Definition grant (n : Node) (h : string) : Perm :=
  match assoc h (n_permissions n) with
  | Some p => p
  | None => mkPerm false false false
  end.

(** Modelled from the spec: [FilesystemPermissions.readable], read
    granted on the node and on every ancestor up to the root. *)
Fixpoint readable_walk (h : string) (segs : list string) (n : Node) : bool :=
  perm_read (grant n h) &&
  match segs with
  | [] => true
  | s :: rest =>
      match find_child s (n_children n) with
      | Some c => readable_walk h rest c
      | None => false
      end
  end.

(** The node grants write and its immediate parent grants propagate. *)
Definition link_writable (h : string) (parent child : Node) : bool :=
  perm_write (grant child h) && perm_propagate (grant parent h).

(** Modelled from the spec: [FilesystemPermissions.writable_self].  The
    root has no parent whose propagate bit could hold. *)
Definition writable_self_at (h : string) (segs : list string) (r : Node) : bool :=
  match resolve_link segs None r with
  | Some (Some p, n) => link_writable h p n
  | _ => false
  end.

(** Modelled from the spec: [FilesystemPermissions.writable], the node
    itself grants write and propagate. *)
Definition writable_at (h : string) (segs : list string) (r : Node) : bool :=
  match resolve segs r with
  | Some n => perm_write (grant n h) && perm_propagate (grant n h)
  | None => false
  end.

(** Every (parent, child) pair below [n]: the descendants of [n], each
    with its immediate parent. *)
Fixpoint links (n : Node) : list (Node * Node) :=
  flat_map (fun c => (n, c) :: links c) (n_children n).

(** Modelled from the spec: [FilesystemPermissions.writable_all],
    [writable_self] on the node and on every descendant. *)
Definition writable_all_at (h : string) (segs : list string) (r : Node) : bool :=
  writable_self_at h segs r &&
  match resolve segs r with
  | Some n => forallb (fun pc => link_writable h (fst pc) (snd pc)) (links n)
  | None => false
  end.

(** Modelled from the spec: the probes of [FilesystemPermissions];
    [read_writable] and [read_writable_all] are the conjunctions. *)
Definition spec_perm_eval (q : perm_query) (u : User) (t : FsState) : bool :=
  let h := handle u in
  let r := fs_root t in
  match q with
  | Readable p d => readable_walk h (target_segments p d) r
  | Writable p d => writable_at h (target_segments p d) r
  | WritableSelf p d => writable_self_at h (target_segments p d) r
  | WritableAll p d => writable_all_at h (target_segments p d) r
  | ReadWritable p d =>
      readable_walk h (target_segments p d) r && writable_at h (target_segments p d) r
  | ReadWritableAll p d =>
      readable_walk h (target_segments p d) r && writable_all_at h (target_segments p d) r
  end.

(** *** Structural operations *)

Definition has_child (x : string) (cs : list Node) : bool :=
  match find_child x cs with
  | Some _ => true
  | None => false
  end.

(** Applies [g] to the first child called [x]. *)
Fixpoint alter_child (g : Node -> option Node) (x : string) (cs : list Node)
    : option (list Node) :=
  match cs with
  | [] => None
  | c :: rest =>
      if String.eqb (n_name c) x then
        match g c with
        | Some c' => Some (c' :: rest)
        | None => None
        end
      else
        match alter_child g x rest with
        | Some rest' => Some (c :: rest')
        | None => None
        end
  end.

(** Applies [f] to the node at the end of the walk [segs]. *)
Fixpoint alter_at (f : Node -> option Node) (segs : list string) (n : Node)
    : option Node :=
  match segs with
  | [] => f n
  | s :: rest =>
      match alter_child (alter_at f rest) s (n_children n) with
      | Some cs => Some (with_children n cs)
      | None => None
      end
  end.

Definition drop_child (x : string) (cs : list Node) : list Node :=
  filter (fun c => negb (String.eqb (n_name c) x)) cs.

(** Hangs [c] under the directory [p] unless a sibling has its name. *)
Definition attach (c : Node) (p : Node) : option Node :=
  if n_is_directory p && negb (has_child (n_name c) (n_children p))
  then Some (with_children p (n_children p ++ [c]))
  else None.

Definition join_path (parent x : string) : string :=
  parent ++ "/" ++ x.

Fixpoint is_prefix (a b : list string) : bool :=
  match a, b with
  | [], _ => true
  | x :: a', y :: b' => String.eqb x y && is_prefix a' b'
  | _ :: _, [] => false
  end.

Fixpoint set_owner (h : string) (n : Node) : Node :=
  match n with
  | mkNode a b _ d e f g cs => mkNode a b h d e f g (map (set_owner h) cs)
  end.

(** The entries of [ps] replace those of the same users in [old]. *)
Definition merge_permissions (ps old : list (string * Perm)) : list (string * Perm) :=
  ps ++ filter (fun e => match assoc (fst e) ps with
                         | Some _ => false
                         | None => true
                         end) old.

Fixpoint set_permissions (ps : list (string * Perm)) (recursive : bool) (n : Node) : Node :=
  match n with
  | mkNode a b c d e f g cs =>
      mkNode a b c d e f (merge_permissions ps g)
             (if recursive then map (set_permissions ps recursive) cs else cs)
  end.

(** Every node owned by [h] passes to the owner of its parent. *)
Fixpoint expunge (h parent_owner : string) (n : Node) : Node :=
  match n with
  | mkNode a b c d e f g cs =>
      let c' := if String.eqb c h then parent_owner else c in
      mkNode a b c' d e f g (map (expunge h c') cs)
  end.

Definition item_of (n : Node) : Item :=
  mkItem (n_name n) (n_size n) (n_is_directory n) (n_owner n) (n_uploaded n) None.

Definition lookup_content (ref : Z) (cs : list (Z * list Byte.byte))
    : option (list Byte.byte) :=
  match find (fun e => Z.eqb (fst e) ref) cs with
  | Some e => Some (snd e)
  | None => None
  end.

(** Modelled from the spec: the operations of the Filesystem Tree
    Engine.  A structural operation that cannot be carried out leaves
    the tree as it was and answers [False] ([None] where the facade
    tests [!= None]); reading content that is not there fails with an
    exception.  A new node starts with its parent's permission
    entries; copies share the content object of their source. *)
Definition spec_fs_exec (c : fs_call) (t : FsState) : result value * FsState :=
  let r := fs_root t in
  match c with
  | Fs_create_file parent x usr stream =>
      let data := stream_obj_data stream in
      let ref := fs_next_ref t in
      let make p :=
        attach (mkNode x false usr (Some ref) (Z.of_nat (length data))
                       (fs_clock t) (n_permissions p) []) p in
      match alter_at make (segments parent) r with
      | Some r' =>
          (Ok (VHandle (join_path parent x)),
           mkFsState r' ((ref, data) :: fs_contents t) (ref + 1) (fs_clock t + 1))
      | None => (Ok (VBool false), t)
      end
  | Fs_create_directory parent x usr =>
      let make p :=
        attach (mkNode x true usr None 0 (fs_clock t) (n_permissions p) []) p in
      match alter_at make (segments parent) r with
      | Some r' =>
          (Ok (VHandle (join_path parent x)),
           mkFsState r' (fs_contents t) (fs_next_ref t) (fs_clock t + 1))
      | None => (Ok (VBool false), t)
      end
  | Fs_copy_with_handle source target new_owner =>
      match resolve (segments source) r with
      | Some n =>
          let n' := match new_owner with
                    | Some h => set_owner h n
                    | None => n
                    end in
          match alter_at (attach n') (segments target) r with
          | Some r' => (Ok (VHandle (join_path target (n_name n))), with_root t r')
          | None => (Ok VNone, t)
          end
      | None => (Ok VNone, t)
      end
  | Fs_move_with_handle source target =>
      let src := segments source in
      match src, resolve src r with
      | _ :: _, Some n =>
          if is_prefix src (segments target) then (Ok VNone, t) else
          let unlink p := Some (with_children p (drop_child (n_name n) (n_children p))) in
          match alter_at unlink (removelast src) r with
          | Some r1 =>
              match alter_at (attach n) (segments target) r1 with
              | Some r' => (Ok (VHandle (join_path target (n_name n))), with_root t r')
              | None => (Ok VNone, t)
              end
          | None => (Ok VNone, t)
          end
      | _, _ => (Ok VNone, t)
      end
  | Fs_remove path =>
      let segs := segments path in
      match segs, resolve segs r with
      | _ :: _, Some n =>
          let unlink p := Some (with_children p (drop_child (n_name n) (n_children p))) in
          match alter_at unlink (removelast segs) r with
          | Some r' => (Ok (VBool true), with_root t r')
          | None => (Ok (VBool false), t)
          end
      | _, _ => (Ok (VBool false), t)
      end
  | Fs_rename path x =>
      let segs := segments path in
      match segs with
      | _ :: _ =>
          let old := last segs EmptyString in
          let relabel p :=
            if has_child x (n_children p) then None
            else match alter_child (fun c => Some (with_name c x)) old (n_children p) with
                 | Some cs => Some (with_children p cs)
                 | None => None
                 end in
          match alter_at relabel (removelast segs) r with
          | Some r' => (Ok (VBool true), with_root t r')
          | None => (Ok (VBool false), t)
          end
      | [] => (Ok (VBool false), t)
      end
  | Fs_change_ownership path h =>
      match alter_at (fun n => Some (set_owner h n)) (segments path) r with
      | Some r' => (Ok (VBool true), with_root t r')
      | None => (Ok (VBool false), t)
      end
  | Fs_change_permissions path ps recursive =>
      match alter_at (fun n => Some (set_permissions ps recursive n)) (segments path) r with
      | Some r' => (Ok (VBool true), with_root t r')
      | None => (Ok (VBool false), t)
      end
  | Fs_expunge_user_ownership h =>
      (Ok (VBool true), with_root t (expunge h (n_owner r) r))
  | Fs_get_content path =>
      match resolve (segments path) r with
      | Some n =>
          match n_content_ref n with
          | Some ref =>
              match lookup_content ref (fs_contents t) with
              | Some data => (Ok (VBytes data), t)
              | None => (Err NotFound, t)
              end
          | None => (Err Invalid, t)
          end
      | None => (Err NotFound, t)
      end
  end.

(** Modelled from the spec: [Filesystem.list_directory], the immediate
    children of the directory with name, size, directory flag, owner
    and upload time; no ['writable'] key. *)
Definition spec_list_directory (path : string) (t : FsState)
    : result (list Item) * FsState :=
  match resolve (segments path) (fs_root t) with
  | Some n => (Ok (map item_of (n_children n)), t)
  | None => (Err NotFound, t)
  end.

(** Modelled from the spec: [FilesystemPermissions.copy_reown], the
    subtree behind the handle passes to the acting user. *)
Definition spec_copy_reown (v : value) (u : User) (t : FsState)
    : result unit * FsState :=
  match v with
  | VHandle path =>
      match alter_at (fun n => Some (set_owner (handle u) n)) (segments path) (fs_root t) with
      | Some r' => (Ok tt, with_root t r')
      | None => (Ok tt, t)
      end
  | _ => (Ok tt, t)
  end.

(** Modelled from the spec: the constructor of [file_stream.FileStream],
    the [open] of the Content Store.  It allocates a stream; in read mode
    the object id must reference an existing content object, or the store
    fails with [NotFound].  Only the Content Store is consulted, and
    nothing is written. *)
Definition spec_stream_open (mode : string) (est_length obj_oid : Z)
    (obj_data : list Byte.byte) (t : FsState) : result FileStream :=
  if String.eqb mode "read" then
    match lookup_content obj_oid (fs_contents t) with
    | Some _ => Ok (mkFileStream mode est_length obj_oid obj_data)
    | None => Err NotFound
    end
  else Ok (mkFileStream mode est_length obj_oid obj_data).

#[export] Instance engine : Engine FsState := {|
  perm_eval := spec_perm_eval;
  fs_exec := spec_fs_exec;
  fs_list_directory := spec_list_directory;
  perm_copy_reown := spec_copy_reown;
  stream_open := spec_stream_open
|}.

(** *** A small tree to run the facade on

    [/] holds the directory [docs] with the files [a.txt] and [b.txt],
    and the directory [hidden].  [alice] may read and write everywhere
    except that [b.txt] denies her write; [hidden] gives her nothing. *)
Definition alice : User := mkUser "alice".
Definition rwx : list (string * Perm) := [("alice", mkPerm true true true)].
Definition r_x : list (string * Perm) := [("alice", mkPerm true false true)].

Definition a_txt : Node := mkNode "a.txt" false "alice" (Some 1%Z) 2 10 rwx [].
Definition b_txt : Node := mkNode "b.txt" false "bob" (Some 2%Z) 1 11 r_x [].
Definition docs : Node := mkNode "docs" true "alice" None 0 5 rwx [a_txt; b_txt].
Definition hidden : Node := mkNode "hidden" true "bob" None 0 6 [] [].
Definition root0 : Node := mkNode EmptyString true "public" None 0 0 rwx [docs; hidden].

Definition tree0 : FsState :=
  mkFsState root0 [(1%Z, [Byte.x68; Byte.x69]); (2%Z, [Byte.x21])] 3 12.

Definition world0 : World FsState := mkWorld false tree0 [].

End SpecEngine.

(** ** Shapes of a call's log *)

Definition no_lock_event (evs : list event) : bool :=
  forallb (fun ev => negb (is_lock_event ev)) evs.

Definition no_engine_event (evs : list event) : bool :=
  forallb (fun ev => negb (is_engine_event ev)) evs.

Definition no_perm_event (evs : list event) : bool :=
  forallb (fun ev => negb (is_perm_event ev)) evs.

(** The log of one call: nothing at all, or one acquire, then calls of
    the collaborators, then one release. *)
Definition bracketed (evs : list event) : Prop :=
  evs = [] \/
  exists body, evs = EvAcquire :: body ++ [EvRelease] /\ no_lock_event body = true.

Definition bracketedb (evs : list event) : bool :=
  match evs with
  | [] => true
  | EvAcquire :: rest =>
      match rev rest with
      | EvRelease :: body => no_lock_event body
      | _ => false
      end
  | _ => false
  end.

(** The world in which the body of a facade function runs once the lock
    is taken and the probes [qs] have been put to [u]. *)
Definition after_checks {Tree : Type} (w : World Tree) (qs : list perm_query)
    (u : User) : World Tree :=
  mkWorld true (tree w) (trace w ++ EvAcquire :: map (fun q => EvPerm q u) qs).

(** What [list_directory] returns for the entries [items] of the engine,
    with the probes evaluated in the tree [t]. *)
Definition listing {Tree : Type} {E : Engine Tree} (path : string)
    (user : option User) (t : Tree) (items : list Item) : list Item :=
  match user with
  | None => items
  | Some u =>
      map (fun it =>
             set_writable it (perm_eval (WritableSelf (file_name it) (Some path)) u t))
          (filter (fun it => perm_eval (Readable (file_name it) (Some path)) u t) items)
  end.

(** ** The facade call by call *)

(** No character of the string is a slash. *)
Fixpoint slash_free (s : string) : bool :=
  match s with
  | EmptyString => true
  | String c rest => negb (Ascii.eqb c slash) && slash_free rest
  end.

(** Reads a log against the lock: an acquire needs the lock free, a
    release needs it held, and a probe or a call of the tree engine needs
    it held.  The answer is the state of the lock at the end, [None] when
    the log breaks one of these rules. *)
Fixpoint replay (held : bool) (evs : list event) : option bool :=
  match evs with
  | [] => Some held
  | EvAcquire :: rest => if held then None else replay true rest
  | EvRelease :: rest => if held then replay false rest else None
  | _ :: rest => if held then replay true rest else None
  end.

(** The log of the world, read from a free lock, ends in the state the
    lock is in. *)
Definition consistent {Tree : Type} (w : World Tree) : Prop :=
  replay false (trace w) = Some (FilesystemLock w).

(** One facade call after the other, each on the world the one before
    left, whether it returned, raised or never came back. *)
Definition run_each {Tree : Type} {E : Engine Tree} (cs : list facade_call)
    (w : World Tree) : World Tree :=
  fold_left (fun w' c => snd (run c w')) cs w.

(** The user a call acts for, when it has one. *)
Definition acting_user (c : facade_call) : option User :=
  match user_of c with
  | Some (Some u) => Some u
  | _ => None
  end.

(** Every probe the call has to pass is granted in [t]; a call without a
    user has none to pass. *)
Definition granted {Tree : Type} {E : Engine Tree} (c : facade_call) (t : Tree) : bool :=
  match acting_user c with
  | Some u => negb (refused c u t)
  | None => true
  end.

(** The probes of a call that passes them all, as they appear in the log. *)
Definition probes_of (c : facade_call) : list event :=
  match acting_user c with
  | Some u => map (fun q => EvPerm q u) (required_checks c)
  | None => []
  end.

(** The probes put until the first refusal, this one included. *)
Fixpoint asked {Tree : Type} {E : Engine Tree} (u : User) (t : Tree)
    (qs : list perm_query) : list perm_query :=
  match qs with
  | [] => []
  | q :: rest => q :: (if perm_eval q u t then asked u t rest else [])
  end.

(** The method of [Filesystem] behind the functions that return its
    answer as it is. *)
Definition pass_through (c : facade_call) : option fs_call :=
  match c with
  | F_create_file p x s user => Some (Fs_create_file p x (usr_handle_of user) s)
  | F_create_directory p x user => Some (Fs_create_directory p x (usr_handle_of user))
  | F_remove p _ => Some (Fs_remove p)
  | F_rename p x _ => Some (Fs_rename p x)
  | F_change_ownership p o _ => Some (Fs_change_ownership p o)
  | F_change_permissions p ps r _ => Some (Fs_change_permissions p ps r)
  | F_expunge_user_ownership h => Some (Fs_expunge_user_ownership h)
  | F_get_content p _ => Some (Fs_get_content p)
  | _ => None
  end.

(** The method of [Filesystem] behind [copy] and [move]. *)
Definition relinking (c : facade_call) : option fs_call :=
  match c with
  | F_copy s d _ => Some (Fs_copy_with_handle s d None)
  | F_move s d _ => Some (Fs_move_with_handle s d)
  | _ => None
  end.

(** What a function hands back when a probe refuses the user. *)
Definition denial_answer (c : facade_call) : answer :=
  match c with
  | F_get_content _ _ => AValue VEmptyFileStream
  | F_readable _ _ | F_writable _ _ | F_writable_self _ _ => ABool false
  | _ => AValue (VBool false)
  end.

(** The probes [list_directory] puts for the entries [items]: read access
    for each, and self-write for those that can be read. *)
Definition entry_probes {Tree : Type} {E : Engine Tree} (path : string)
    (u : User) (t : Tree) (items : list Item) : list event :=
  flat_map
    (fun it =>
       EvPerm (Readable (file_name it) (Some path)) u ::
       (if perm_eval (Readable (file_name it) (Some path)) u t
        then [EvPerm (WritableSelf (file_name it) (Some path)) u]
        else []))
    items.

(** What going straight to the method [fc] of the tree engine comes to,
    from a world with the lock free: the lock is taken, the method runs
    on the tree, and either its answer (through [answer_of]) comes back
    with the lock released, or its exception comes out with the lock
    held. *)
Definition delegated {Tree : Type} {E : Engine Tree} (fc : fs_call)
    (answer_of : value -> value) (w : World Tree) : outcome value * World Tree :=
  match fs_exec fc (tree w) with
  | (Ok v, t') =>
      (Returned (answer_of v),
       mkWorld false t' (trace w ++ [EvAcquire; EvCall fc; EvRelease]))
  | (Err e, t') =>
      (Raised e, mkWorld true t' (trace w ++ [EvAcquire; EvCall fc]))
  end.

(** * Properties *)

(** ** [get_file_name] *)

Lemma split_slash_nonempty (path : string) : split_slash path <> [].
Proof.
  induction path as [|c rest IH]; simpl; [discriminate|].
  destruct (Ascii.eqb c slash); [discriminate|].
  destruct (split_slash rest); discriminate.
Qed.

Lemma list_remove_None (x : string) (l : list string) :
  list_remove x l = None <-> ~ In x l.
Proof.
  induction l as [|y rest IH]; simpl.
  - split; [intros _ []|reflexivity].
  - destruct (String.eqb y x) eqn:Heq.
    + apply String.eqb_eq in Heq. split; [discriminate|]. intros H. elim H. now left.
    + apply String.eqb_neq in Heq.
      destruct (list_remove x rest) as [rest'|].
      * split; [discriminate|]. intros H.
        destruct IH as [_ IH]. assert (Hn : ~ In x rest) by (intros Hin; apply H; now right).
        specialize (IH Hn). discriminate.
      * split; [|reflexivity]. intros _ [Hy|Hin]; [now apply Heq|].
        destruct IH as [IH _]. now apply IH.
Qed.

(** X1: [get_file_name] raises exactly on the paths without an empty
    segment, that is, without a leading, trailing or doubled slash and
    not empty. *)
Lemma get_file_name_raises_iff (path : string) :
  get_file_name path = Raised ValueError <-> ~ In EmptyString (split_slash path).
Proof.
  unfold get_file_name. rewrite <- list_remove_None.
  destruct (list_remove EmptyString (split_slash path)); split; congruence.
Qed.

(** X2: on a path that starts with a slash the result is the last segment. *)
Lemma get_file_name_absolute (rest : string) :
  get_file_name (String slash rest) = Returned (last (split_slash rest) EmptyString).
Proof.
  unfold get_file_name. simpl.
  destruct (split_slash rest) as [|seg segs] eqn:Hs.
  - now apply split_slash_nonempty in Hs.
  - reflexivity.
Qed.

(** C9: [get_file_name] is not total.  A path without an empty segment,
    such as a bare file name or a relative path, makes [path.remove('')]
    raise [ValueError]; only a path with a leading slash (or another empty
    segment) gets its last segment back. *)
Theorem get_file_name_relative_path_raises :
  get_file_name "file.txt" = Raised ValueError /\
  get_file_name "docs/file.txt" = Raised ValueError /\
  get_file_name "/docs/file.txt" = Returned "file.txt".
Proof. repeat split; reflexivity. Qed.

(** ** The facade over any engine *)

Section FacadeProperties.
Context {Tree : Type} {E : Engine Tree}.

Local Ltac start w H :=
  destruct w as [l t tr]; simpl in H; subst l.

Local Ltac norm_trace := rewrite <- ?app_assoc; cbn [app].

Local Ltac unfold_facade :=
  unfold run, answering, pure_call, create_file_handle, create_file,
    create_directory, copy, move, remove, rename, change_ownership,
    change_permissions, expunge_user_ownership, list_directory, get_content,
    readable, writable, writable_self, reown_if_user, usr_handle_of, invoke,
    list_dir, copy_reown, new_stream, lift_result, denied, perm, acquire,
    release, ret, bind, log;
  cbn.

Lemma acquire_free (w : World Tree) :
  FilesystemLock w = false ->
  acquire w = (Returned tt, mkWorld true (tree w) (trace w ++ [EvAcquire])).
Proof. intros H. unfold acquire. rewrite H. reflexivity. Qed.

Lemma bind_returned {A B : Type} (m : M Tree A) (k : A -> M Tree B)
    (w w' : World Tree) (a : A) :
  m w = (Returned a, w') -> bind m k w = k a w'.
Proof. intros H. unfold bind. rewrite H. reflexivity. Qed.

Lemma bracketedb_sound (evs : list event) :
  bracketedb evs = true -> bracketed evs.
Proof.
  destruct evs as [|ev rest]; [now left|].
  destruct ev; try discriminate. simpl.
  destruct (rev rest) as [|ev body] eqn:Hrev; [discriminate|].
  destruct ev; try discriminate. intros Hbody. right.
  exists (rev body). split.
  - f_equal. rewrite <- (rev_involutive rest), Hrev. reflexivity.
  - unfold no_lock_event in *. rewrite forallb_forall in *.
    intros ev Hin. apply Hbody. now apply in_rev.
Qed.

(** C3: when the user is refused read access to [path], [get_content]
    returns the sentinel [EmptyFileStream]; it does not raise, it does not
    call the tree engine, and the lock is free afterwards. *)
Theorem get_content_denied_returns_sentinel
    (path : string) (u : User) (w : World Tree) :
  FilesystemLock w = false ->
  perm_eval (Readable path None) u (tree w) = false ->
  get_content path (Some u) w =
    (Returned VEmptyFileStream,
     mkWorld false (tree w)
       (trace w ++ [EvAcquire; EvPerm (Readable path None) u; EvRelease])).
Proof.
  intros H Hr. start w H. simpl in Hr.
  cbn. rewrite Hr. cbn. norm_trace. reflexivity.
Qed.

Local Ltac step :=
  match goal with
  | |- context [perm_eval ?q ?u ?t] => destruct (perm_eval q u t) eqn:?
  | |- context [fs_exec ?c ?t] => destruct (fs_exec c t) as [[?|?] ?] eqn:?
  | |- context [perm_copy_reown ?v ?u ?t] =>
      destruct (perm_copy_reown v u t) as [[?|?] ?] eqn:?
  | |- context [fs_list_directory ?p ?t] =>
      destruct (fs_list_directory p t) as [[?|?] ?] eqn:?
  | |- context [stream_open ?m ?n ?o ?d ?t] =>
      destruct (stream_open m n o d t) as [?|?] eqn:?
  end; cbn.

Lemma perm_events_quiet (evs : list event) :
  forallb is_perm_event evs = true ->
  no_lock_event evs = true /\ no_engine_event evs = true.
Proof.
  unfold no_lock_event, no_engine_event. rewrite !forallb_forall.
  intros H. split; intros ev Hin; specialize (H ev Hin); now destruct ev.
Qed.

(** The loop of [list_directory] only puts probes: it keeps the lock and
    the tree, and it returns the visible entries with their flags. *)
Lemma list_directory_loop_run (path : string) (user : option User)
    (items : list Item) (w : World Tree) :
  exists evs,
    list_directory_loop path user items w =
      (Returned (listing path user (tree w) items),
       mkWorld (FilesystemLock w) (tree w) (trace w ++ evs)) /\
    forallb is_perm_event evs = true /\
    (user = None -> evs = []).
Proof.
  revert w. induction items as [|item rest IH]; intros [l t tr].
  - exists []. cbn. rewrite app_nil_r. destruct user; repeat split; reflexivity.
  - destruct user as [u|].
    + cbn. destruct (perm_eval (Readable (file_name item) (Some path)) u t) eqn:Hr; cbn.
      * destruct (IH (mkWorld l t
                        ((tr ++ [EvPerm (Readable (file_name item) (Some path)) u]) ++
                         [EvPerm (WritableSelf (file_name item) (Some path)) u])))
          as (evs & Hrun & Hevs & _).
        rewrite (bind_returned _ _ _ _ _ Hrun). cbn. rewrite ?Hr. cbn.
        exists (EvPerm (Readable (file_name item) (Some path)) u ::
                EvPerm (WritableSelf (file_name item) (Some path)) u :: evs).
        repeat split; [|assumption|discriminate].
        norm_trace. reflexivity.
      * destruct (IH (log (EvPerm (Readable (file_name item) (Some path)) u) (mkWorld l t tr)))
          as (evs & Hrun & Hevs & _).
        rewrite Hrun. cbn. rewrite ?Hr. cbn.
        exists (EvPerm (Readable (file_name item) (Some path)) u :: evs).
        repeat split; [|assumption|discriminate].
        norm_trace. reflexivity.
    + cbn. destruct (IH (mkWorld l t tr)) as (evs & Hrun & Hevs & Hnone).
      rewrite (bind_returned _ _ _ _ _ Hrun). cbn. exists evs.
      repeat split; assumption.
Qed.

(** C4: a mutating call made for a user to whom one of the required
    grants is refused returns [False], leaves the tree as it was, and
    calls no method of the tree engine; the lock is free afterwards. *)
Theorem denied_mutation_leaves_tree_unchanged
    (c : facade_call) (u : User) (w : World Tree) :
  is_mutation c = true ->
  user_of c = Some (Some u) ->
  FilesystemLock w = false ->
  refused c u (tree w) = true ->
  exists evs,
    run c w = (Returned (AValue (VBool false)),
               mkWorld false (tree w) (trace w ++ evs)) /\
    no_engine_event evs = true.
Proof.
  intros Hm Hu H Hd. start w H.
  destruct c; try discriminate Hm; cbn in Hu; inversion Hu; subst;
    unfold refused in Hd; cbn in Hd; revert Hd; unfold_facade;
    repeat step; intros Hd; try discriminate Hd;
    (eexists; split; [norm_trace; reflexivity | reflexivity]).
Qed.

(** C6: with a user, [move] reaches [Filesystem.move_with_handle] exactly
    when the four probes (read, full-subtree write and self-write on the
    source, write on the target parent) all hold; when one of them fails
    it returns [False], the tree is untouched and no method of the tree
    engine is called. *)
Theorem move_requires_four_checks
    (source target_parent : string) (u : User) (w : World Tree) :
  FilesystemLock w = false ->
  (perm_eval (Readable source None) u (tree w) &&
   perm_eval (WritableAll source None) u (tree w) &&
   perm_eval (WritableSelf source None) u (tree w) &&
   perm_eval (Writable target_parent None) u (tree w) = true ->
   move source target_parent (Some u) w =
     (ret_result <- invoke (Fs_move_with_handle source target_parent) ;;
      copy_reown ret_result u ;;
      release ;;
      ret (VBool (not_None ret_result)))%facade
       (after_checks w [Readable source None; WritableAll source None;
                        WritableSelf source None; Writable target_parent None] u)) /\
  (perm_eval (Readable source None) u (tree w) &&
   perm_eval (WritableAll source None) u (tree w) &&
   perm_eval (WritableSelf source None) u (tree w) &&
   perm_eval (Writable target_parent None) u (tree w) = false ->
   exists evs,
     move source target_parent (Some u) w =
       (Returned (VBool false), mkWorld false (tree w) (trace w ++ evs)) /\
     no_engine_event evs = true).
Proof.
  intros H. start w H. cbn [tree trace]. split; intros Hq.
  - apply andb_prop in Hq as [Hq H4]. apply andb_prop in Hq as [Hq H3].
    apply andb_prop in Hq as [H1 H2].
    unfold after_checks. cbn. rewrite H1; cbn. rewrite H2; cbn.
    rewrite H3; cbn. rewrite H4; cbn. unfold log; cbn. norm_trace. reflexivity.
  - revert Hq. unfold_facade. repeat step; intros Hq; try discriminate Hq;
      (eexists; split; [norm_trace; reflexivity | reflexivity]).
Qed.

(** With a user, [remove] is refused as soon as one of its three probes
    fails. *)
Lemma remove_denied (path : string) (u : User) (w : World Tree) :
  FilesystemLock w = false ->
  perm_eval (Readable path None) u (tree w) &&
  perm_eval (WritableSelf path None) u (tree w) &&
  perm_eval (WritableAll path None) u (tree w) = false ->
  exists evs,
    remove path (Some u) w =
      (Returned (VBool false), mkWorld false (tree w) (trace w ++ evs)) /\
    no_engine_event evs = true.
Proof.
  intros H Hq. start w H. revert Hq. unfold_facade.
  repeat step; intros Hq; try discriminate Hq;
    (eexists; split; [norm_trace; reflexivity | reflexivity]).
Qed.

(** With a user whose three probes hold, [remove] hands over to
    [Filesystem.remove]. *)
Lemma remove_granted (path : string) (u : User) (w : World Tree) :
  FilesystemLock w = false ->
  perm_eval (Readable path None) u (tree w) &&
  perm_eval (WritableSelf path None) u (tree w) &&
  perm_eval (WritableAll path None) u (tree w) = true ->
  remove path (Some u) w =
    (ret_result <- invoke (Fs_remove path) ;; release ;; ret ret_result)%facade
      (after_checks w [Readable path None; WritableSelf path None;
                       WritableAll path None] u).
Proof.
  intros H Hq. start w H. cbn [tree] in Hq.
  apply andb_prop in Hq as [Hq H3]. apply andb_prop in Hq as [H1 H2].
  unfold after_checks. cbn. rewrite H1; cbn. rewrite H2; cbn. rewrite H3; cbn.
  unfold log; cbn. norm_trace. reflexivity.
Qed.

(** Without a user the loop of [list_directory] passes the entries on as
    they are and puts no probe. *)
Lemma list_directory_loop_system (path : string) (items : list Item) (w : World Tree) :
  list_directory_loop path None items w = (Returned items, w).
Proof.
  destruct (list_directory_loop_run path None items w) as (evs & Hrun & _ & Hnone).
  rewrite Hrun, (Hnone eq_refl), app_nil_r. now destruct w.
Qed.

(** [list_directory] when the tree engine lists the directory. *)
Lemma list_directory_run (path : string) (user : option User) (w : World Tree)
    (items : list Item) (t' : Tree) :
  FilesystemLock w = false ->
  fs_list_directory path (tree w) = (Ok items, t') ->
  exists evs,
    list_directory path user w =
      (Returned (listing path user t' items),
       mkWorld false t' (trace w ++ EvAcquire :: EvList path :: evs ++ [EvRelease])) /\
    forallb is_perm_event evs = true /\
    (user = None -> evs = []).
Proof.
  intros H Hl. start w H. cbn [tree] in Hl.
  destruct (list_directory_loop_run path user items
              (mkWorld true t' ((tr ++ [EvAcquire]) ++ [EvList path])))
    as (evs & Hrun & Hevs & Hnone).
  unfold list_directory, list_dir, lift_result, acquire, log.
  cbn. unfold bind at 1. cbn. unfold bind at 1. cbn. rewrite Hl.
  rewrite Hrun. cbn. exists evs. repeat split; try assumption.
  norm_trace. reflexivity.
Qed.

(** [list_directory] when the tree engine raises: the exception leaves
    the facade while the lock is held. *)
Lemma list_directory_fail (path : string) (user : option User) (w : World Tree)
    (e : exn) (t' : Tree) :
  FilesystemLock w = false ->
  fs_list_directory path (tree w) = (Err e, t') ->
  list_directory path user w =
    (Raised e, mkWorld true t' (trace w ++ [EvAcquire; EvList path])).
Proof.
  intros H Hl. start w H. cbn [tree] in Hl.
  unfold list_directory, list_dir, lift_result, acquire, log.
  cbn. unfold bind at 1. cbn. unfold bind at 1. cbn. rewrite Hl.
  norm_trace. reflexivity.
Qed.

(** C8, as the code has it: with a user, [list_directory] returns the
    entries of the tree engine, in order, without those the user cannot
    read, each with ['writable'] set to the user's [writable_self] on that
    entry; without a user it returns the entries as the tree engine made
    them and sets no flag. *)
Theorem list_directory_filters_and_flags
    (path : string) (w : World Tree) (items : list Item) (t' : Tree) :
  FilesystemLock w = false ->
  fs_list_directory path (tree w) = (Ok items, t') ->
  (forall u : User,
     exists evs,
       list_directory path (Some u) w =
         (Returned
            (map (fun it =>
                    set_writable it
                      (perm_eval (WritableSelf (file_name it) (Some path)) u t'))
                 (filter (fun it =>
                            perm_eval (Readable (file_name it) (Some path)) u t')
                         items)),
          mkWorld false t' (trace w ++ evs))) /\
  list_directory path None w =
    (Returned items,
     mkWorld false t' (trace w ++ [EvAcquire; EvList path; EvRelease])).
Proof.
  intros H Hl. split.
  - intros u.
    destruct (list_directory_run path (Some u) w items t' H Hl) as (evs & Hrun & _).
    eexists. exact Hrun.
  - destruct (list_directory_run path None w items t' H Hl) as (evs & Hrun & _ & Hnone).
    rewrite Hrun, (Hnone eq_refl). reflexivity.
Qed.

(** C7: a call without a user, entered with the lock free, puts no probe
    at all and goes straight to the tree engine: the method of
    [Filesystem] runs on the tree whatever the tree is, its answer is the
    answer of the call and its tree is the tree afterwards (owner
    ['public'] for the two creations, the boolean [!= None] and no
    re-owning for [copy] and [move], the listing as it comes); the three
    exported probes answer [True] for every path. *)
Theorem system_caller_skips_every_check (w : World Tree) :
  FilesystemLock w = false ->
  (forall c : facade_call,
     user_of c = Some None ->
     exists evs,
       trace (snd (run c w)) = trace w ++ evs /\ no_perm_event evs = true) /\
  (forall p x s,
     create_file p x s None w =
       delegated (Fs_create_file p x "public" s) (fun v => v) w) /\
  (forall p x,
     create_directory p x None w =
       delegated (Fs_create_directory p x "public") (fun v => v) w) /\
  (forall s d,
     copy s d None w =
       delegated (Fs_copy_with_handle s d None) (fun v => VBool (not_None v)) w) /\
  (forall s d,
     move s d None w =
       delegated (Fs_move_with_handle s d) (fun v => VBool (not_None v)) w) /\
  (forall p, remove p None w = delegated (Fs_remove p) (fun v => v) w) /\
  (forall p x, rename p x None w = delegated (Fs_rename p x) (fun v => v) w) /\
  (forall p o,
     change_ownership p o None w =
       delegated (Fs_change_ownership p o) (fun v => v) w) /\
  (forall p ps rec,
     change_permissions p ps rec None w =
       delegated (Fs_change_permissions p ps rec) (fun v => v) w) /\
  (forall p, get_content p None w = delegated (Fs_get_content p) (fun v => v) w) /\
  (forall p,
     list_directory p None w =
       match fs_list_directory p (tree w) with
       | (Ok items, t') =>
           (Returned items,
            mkWorld false t' (trace w ++ [EvAcquire; EvList p; EvRelease]))
       | (Err e, t') =>
           (Raised e, mkWorld true t' (trace w ++ [EvAcquire; EvList p]))
       end) /\
  (forall p : string,
     readable p None w =
       (Returned true, mkWorld false (tree w) (trace w ++ [EvAcquire; EvRelease])) /\
     writable p None w =
       (Returned true, mkWorld false (tree w) (trace w ++ [EvAcquire; EvRelease])) /\
     writable_self p None w =
       (Returned true, mkWorld false (tree w) (trace w ++ [EvAcquire; EvRelease]))).
Proof.
  intros H. pose proof H as Hfree. start w H. cbn [tree trace].
  repeat apply conj.
  - intros c Hu.
    destruct c; try discriminate Hu; cbn in Hu; inversion Hu; subst.
    all: try solve [unfold_facade; repeat step;
                    (eexists; split; [norm_trace; reflexivity | reflexivity])].
    unfold run, answering.
    destruct (fs_list_directory path t) as [[items|e] t'] eqn:Hl.
    + destruct (list_directory_run path None (mkWorld false t tr) items t' eq_refl Hl)
        as (evs & Hrun & _ & Hnone).
      rewrite (bind_returned _ _ _ _ _ Hrun), (Hnone eq_refl). cbn.
      eexists; split; reflexivity.
    + unfold bind.
      rewrite (list_directory_fail path None (mkWorld false t tr) e t' eq_refl Hl).
      cbn. eexists; split; reflexivity.
  - intros. unfold delegated. unfold_facade. repeat step; norm_trace; reflexivity.
  - intros. unfold delegated. unfold_facade. repeat step; norm_trace; reflexivity.
  - intros. unfold delegated. unfold_facade. repeat step; norm_trace; reflexivity.
  - intros. unfold delegated. unfold_facade. repeat step; norm_trace; reflexivity.
  - intros. unfold delegated. unfold_facade. repeat step; norm_trace; reflexivity.
  - intros. unfold delegated. unfold_facade. repeat step; norm_trace; reflexivity.
  - intros. unfold delegated. unfold_facade. repeat step; norm_trace; reflexivity.
  - intros. unfold delegated. unfold_facade. repeat step; norm_trace; reflexivity.
  - intros. unfold delegated. unfold_facade. repeat step; norm_trace; reflexivity.
  - intros p. cbn [tree trace].
    destruct (fs_list_directory p t) as [[items|e] t'] eqn:Hl.
    + destruct (list_directory_run p None (mkWorld false t tr) items t' eq_refl Hl)
        as (evs & Hrun & _ & Hnone).
      rewrite Hrun, (Hnone eq_refl). reflexivity.
    + apply (list_directory_fail p None (mkWorld false t tr) e t' eq_refl Hl).
  - intros p. repeat apply conj; cbn; norm_trace; reflexivity.
Qed.

Lemma bracketed_around (body : list event) :
  no_lock_event body = true -> bracketed (EvAcquire :: body ++ [EvRelease]).
Proof. intros H. right. now exists body. Qed.

(** On the paths that return: a facade call that starts with the lock free
    and returns (with success, with a denial, or with a failure that the
    tree engine reports by its return value) took the lock before its
    first probe and its first call of the tree engine, gave it back after
    the last one, and leaves the lock free.  [get_file_name] takes no
    lock and calls nobody. *)
Theorem facade_releases_lock_on_return
    (c : facade_call) (w w' : World Tree) (a : answer) :
  FilesystemLock w = false ->
  run c w = (Returned a, w') ->
  FilesystemLock w' = false /\
  exists evs, trace w' = trace w ++ evs /\ bracketed evs.
Proof.
  intros H. start w H. cbn [trace].
  destruct c.
  11: {
    unfold run, answering.
    destruct (fs_list_directory path t) as [[items|e] t'] eqn:Hl.
    - destruct (list_directory_run path user (mkWorld false t tr) items t' eq_refl Hl)
        as (evs & Hrun & Hevs & _).
      rewrite (bind_returned _ _ _ _ _ Hrun). cbn. intros Heq. inversion Heq; subst.
      split; [reflexivity|]. eexists; split; [reflexivity|].
      apply (bracketed_around (EvList path :: evs)).
      cbn. now apply perm_events_quiet.
    - unfold bind.
      rewrite (list_directory_fail path user (mkWorld false t tr) e t' eq_refl Hl).
      discriminate. }
  12: {
    unfold_facade. destruct (get_file_name path); intros Heq; inversion Heq; subst.
    split; [reflexivity|]. exists []. split; [now rewrite app_nil_r | now left]. }
  all: unfold_facade; try destruct user as [u|]; cbn; repeat step;
    intros Heq; inversion Heq; subst; cbn;
    (split; [reflexivity|]; eexists; split; [norm_trace; reflexivity|]);
    apply bracketedb_sound; reflexivity.
Qed.

(** X6: a facade call that starts with the lock free never waits. *)
Lemma facade_never_blocks (c : facade_call) (w : World Tree) :
  FilesystemLock w = false -> fst (run c w) <> Blocked.
Proof.
  intros H. start w H.
  destruct c.
  11: {
    unfold run, answering.
    destruct (fs_list_directory path t) as [[items|e] t'] eqn:Hl.
    - destruct (list_directory_run path user (mkWorld false t tr) items t' eq_refl Hl)
        as (evs & Hrun & _).
      rewrite (bind_returned _ _ _ _ _ Hrun). discriminate.
    - unfold bind.
      rewrite (list_directory_fail path user (mkWorld false t tr) e t' eq_refl Hl).
      discriminate. }
  12: { unfold_facade. destruct (get_file_name path) eqn:Hg; try discriminate.
        unfold get_file_name in Hg. destruct (list_remove EmptyString (split_slash path)); discriminate. }
  all: unfold_facade; try destruct user as [u|]; cbn; repeat step; discriminate.
Qed.

(** X7: the other side of C2: when a collaborator raises inside a call that
    took the lock, the exception leaves the facade and the lock stays
    held. *)
Lemma facade_raise_keeps_lock
    (c : facade_call) (w w' : World Tree) (e : exn) :
  FilesystemLock w = false ->
  (forall path, c <> F_get_file_name path) ->
  run c w = (Raised e, w') ->
  FilesystemLock w' = true.
Proof.
  intros H Hc. start w H.
  destruct c.
  11: {
    unfold run, answering.
    destruct (fs_list_directory path t) as [[items|e0] t'] eqn:Hl.
    - destruct (list_directory_run path user (mkWorld false t tr) items t' eq_refl Hl)
        as (evs & Hrun & _).
      rewrite (bind_returned _ _ _ _ _ Hrun). discriminate.
    - unfold bind.
      rewrite (list_directory_fail path user (mkWorld false t tr) e0 t' eq_refl Hl).
      intros Heq. inversion Heq. reflexivity. }
  12: { now elim (Hc path). }
  all: unfold_facade; try destruct user as [u|]; cbn; repeat step;
    intros Heq; inversion Heq; reflexivity.
Qed.

End FacadeProperties.

(** ** The facade over the specified engines *)

Import SpecEngine.

Lemma n_children_with_children (n : Node) (cs : list Node) :
  n_children (with_children n cs) = cs.
Proof. now destruct n. Qed.

Lemma n_name_with_children (n : Node) (cs : list Node) :
  n_name (with_children n cs) = n_name n.
Proof. now destruct n. Qed.

Lemma find_child_last (x : string) (cs : list Node) (c : Node) :
  has_child x cs = false -> n_name c = x -> find_child x (cs ++ [c]) = Some c.
Proof.
  unfold has_child, find_child. intros Hnone Hname.
  induction cs as [|c0 rest IH]; simpl in *.
  - rewrite Hname, String.eqb_refl. reflexivity.
  - destruct (String.eqb (n_name c0) x); [discriminate|]. now apply IH.
Qed.

Lemma alter_child_find (g : Node -> option Node) (x : string) (cs cs' : list Node) :
  (forall c c', g c = Some c' -> n_name c' = n_name c) ->
  alter_child g x cs = Some cs' ->
  exists c c', find_child x cs = Some c /\ g c = Some c' /\ find_child x cs' = Some c'.
Proof.
  intros Hname. revert cs'.
  induction cs as [|c0 rest IH]; intros cs' Halter; simpl in Halter; [discriminate|].
  destruct (String.eqb (n_name c0) x) eqn:Heq.
  - destruct (g c0) as [c0'|] eqn:Hg; [|discriminate].
    inversion Halter; subst. exists c0, c0'. unfold find_child. simpl.
    rewrite (Hname _ _ Hg), Heq. auto.
  - destruct (alter_child g x rest) as [rest'|]; [|discriminate].
    inversion Halter; subst.
    destruct (IH rest' eq_refl) as (c & c' & Hc & Hg & Hc').
    exists c, c'. unfold find_child in *. simpl. rewrite Heq. auto.
Qed.

Lemma alter_at_name (f : Node -> option Node) (segs : list string) (n n' : Node) :
  (forall c c', f c = Some c' -> n_name c' = n_name c) ->
  alter_at f segs n = Some n' -> n_name n' = n_name n.
Proof.
  intros Hname. destruct segs as [|s rest]; simpl.
  - apply Hname.
  - destruct (alter_child (alter_at f rest) s (n_children n)); [|discriminate].
    intros Heq. inversion Heq. apply n_name_with_children.
Qed.

(** A node hung under the directory at [segs] is found at the end of the
    walk [segs] followed by its name. *)
Lemma resolve_after_attach (make : Node -> Node) (x : string)
    (segs : list string) (r r' : Node) :
  (forall p, n_name (make p) = x) ->
  alter_at (fun p => attach (make p) p) segs r = Some r' ->
  exists p, resolve (segs ++ [x]) r' = Some (make p).
Proof.
  intros Hx. revert r r'.
  assert (Hkeep : forall c c', attach (make c) c = Some c' -> n_name c' = n_name c).
  { intros c c'. unfold attach.
    destruct (n_is_directory c && negb (has_child (n_name (make c)) (n_children c)));
      [|discriminate].
    intros Heq. inversion Heq. apply n_name_with_children. }
  induction segs as [|s rest IH]; intros r r' Halter; simpl in *.
  - unfold attach in Halter.
    destruct (n_is_directory r) eqn:Hdir; simpl in Halter; [|discriminate].
    destruct (has_child (n_name (make r)) (n_children r)) eqn:Hhas; simpl in Halter;
      [discriminate|].
    inversion Halter; subst. exists r.
    rewrite n_children_with_children, find_child_last; auto.
    now rewrite <- (Hx r).
  - destruct (alter_child (alter_at (fun p => attach (make p) p) rest) s (n_children r))
      as [cs|] eqn:Hcs; [|discriminate].
    inversion Halter; subst.
    apply alter_child_find in Hcs as (c & c' & _ & Hc & Hfind).
    + rewrite n_children_with_children, Hfind. now apply (IH c).
    + intros c c'. apply alter_at_name, Hkeep.
Qed.

(** A descendant that refuses the user makes [writable_all] fail. *)
Lemma writable_all_at_false (h : string) (segs : list string) (r n parent child : Node) :
  resolve segs r = Some n ->
  In (parent, child) (links n) ->
  link_writable h parent child = false ->
  writable_all_at h segs r = false.
Proof.
  intros Hres Hin Hden. unfold writable_all_at. rewrite Hres.
  apply andb_false_iff. right.
  destruct (forallb (fun pc => link_writable h (fst pc) (snd pc)) (links n)) eqn:Hall;
    [|reflexivity].
  rewrite forallb_forall in Hall. specialize (Hall _ Hin). simpl in Hall. congruence.
Qed.

(** C5: with a user, [remove] returns [False] and leaves the tree
    unchanged unless the user has read access to the path, [writable_self]
    on it and [writable_all] on it; and since [writable_all] asks
    [writable_self] of every descendant, one descendant that refuses it
    is enough for the whole [remove] to be refused. *)
Theorem remove_requires_full_subtree_write :
  (forall (Tree : Type) (E : Engine Tree) (path : string) (u : User) (w : World Tree),
     FilesystemLock w = false ->
     perm_eval (Readable path None) u (tree w) &&
     perm_eval (WritableSelf path None) u (tree w) &&
     perm_eval (WritableAll path None) u (tree w) = false ->
     exists evs,
       remove path (Some u) w =
         (Returned (VBool false), mkWorld false (tree w) (trace w ++ evs)) /\
       no_engine_event evs = true) /\
  (forall (path : string) (u : User) (w : World FsState) (n parent child : Node),
     FilesystemLock w = false ->
     resolve (segments path) (fs_root (tree w)) = Some n ->
     In (parent, child) (links n) ->
     link_writable (handle u) parent child = false ->
     exists evs,
       remove path (Some u) w =
         (Returned (VBool false), mkWorld false (tree w) (trace w ++ evs)) /\
       no_engine_event evs = true).
Proof.
  split.
  - intros Tree E path u w H Hq. now apply remove_denied.
  - intros path u w n parent child H Hres Hin Hden.
    apply remove_denied; [assumption|].
    apply andb_false_iff. right. cbn.
    now apply (writable_all_at_false _ _ _ n parent child).
Qed.

(** C10: without a user, [create_file] and [create_directory] pass the
    literal handle ['public'] to the tree engine as the owner, and the
    node that the tree engine then creates is owned by ['public']. *)
Theorem system_creations_are_owned_by_public :
  (forall (Tree : Type) (E : Engine Tree) (p x : string) (s : FileStream)
          (w : World Tree),
     FilesystemLock w = false ->
     create_file p x s None w =
       match fs_exec (Fs_create_file p x "public" s) (tree w) with
       | (Ok v, t') =>
           (Returned v,
            mkWorld false t'
              (trace w ++ [EvAcquire; EvCall (Fs_create_file p x "public" s); EvRelease]))
       | (Err e, t') =>
           (Raised e,
            mkWorld true t'
              (trace w ++ [EvAcquire; EvCall (Fs_create_file p x "public" s)]))
       end) /\
  (forall (Tree : Type) (E : Engine Tree) (p x : string) (w : World Tree),
     FilesystemLock w = false ->
     create_directory p x None w =
       match fs_exec (Fs_create_directory p x "public") (tree w) with
       | (Ok v, t') =>
           (Returned v,
            mkWorld false t'
              (trace w ++ [EvAcquire; EvCall (Fs_create_directory p x "public"); EvRelease]))
       | (Err e, t') =>
           (Raised e,
            mkWorld true t'
              (trace w ++ [EvAcquire; EvCall (Fs_create_directory p x "public")]))
       end) /\
  (forall (p x : string) (s : FileStream) (w w' : World FsState) (h : string),
     FilesystemLock w = false ->
     create_file p x s None w = (Returned (VHandle h), w') ->
     exists n,
       resolve (segments p ++ [x]) (fs_root (tree w')) = Some n /\
       n_name n = x /\ n_is_directory n = false /\ n_owner n = "public") /\
  (forall (p x : string) (w w' : World FsState) (h : string),
     FilesystemLock w = false ->
     create_directory p x None w = (Returned (VHandle h), w') ->
     exists n,
       resolve (segments p ++ [x]) (fs_root (tree w')) = Some n /\
       n_name n = x /\ n_is_directory n = true /\ n_owner n = "public").
Proof.
  repeat apply conj.
  - intros Tree E p x s [l t tr] H. simpl in H. subst l.
    unfold create_file, invoke, lift_result, denied, usr_handle_of, acquire,
      release, ret, bind, log. cbn.
    destruct (fs_exec (Fs_create_file p x "public" s) t) as [[v|e] t']; cbn;
      rewrite <- ?app_assoc; reflexivity.
  - intros Tree E p x [l t tr] H. simpl in H. subst l.
    unfold create_directory, invoke, lift_result, denied, usr_handle_of, acquire,
      release, ret, bind, log. cbn.
    destruct (fs_exec (Fs_create_directory p x "public") t) as [[v|e] t']; cbn;
      rewrite <- ?app_assoc; reflexivity.
  - intros p x s [l t tr] w' h H. simpl in H. subst l.
    unfold create_file, invoke, lift_result, denied, usr_handle_of, acquire,
      release, ret, bind, log. cbn.
    destruct (alter_at _ (segments p) (fs_root t)) as [r'|] eqn:Halter; cbn;
      [|discriminate].
    intros Heq. inversion Heq; subst. cbn.
    apply (resolve_after_attach
             (fun q => mkNode x false "public" (Some (fs_next_ref t))
                         (Z.of_nat (length (stream_obj_data s))) (fs_clock t)
                         (n_permissions q) []) x) in Halter as [q Hq];
      [|reflexivity].
    eexists. split; [exact Hq|]. repeat split.
  - intros p x [l t tr] w' h H. simpl in H. subst l.
    unfold create_directory, invoke, lift_result, denied, usr_handle_of, acquire,
      release, ret, bind, log. cbn.
    destruct (alter_at _ (segments p) (fs_root t)) as [r'|] eqn:Halter; cbn;
      [|discriminate].
    intros Heq. inversion Heq; subst. cbn.
    apply (resolve_after_attach
             (fun q => mkNode x true "public" None 0 (fs_clock t)
                         (n_permissions q) []) x) in Halter as [q Hq];
      [|reflexivity].
    eexists. split; [exact Hq|]. repeat split.
Qed.



(** ** The properties on the small tree *)




(** On the small tree: [Filesystem.get_content] on a directory raises,
    the exception leaves [get_content] before its [release], and the call
    ends with the lock held. *)
Lemma get_content_failure_keeps_lock :
  fst (get_content "/" None world0) = Raised Invalid /\
  FilesystemLock (snd (get_content "/" None world0)) = true.
Proof. split; reflexivity. Qed.

(** Once an exception has left the facade with the lock held, the next
    call waits for ever, whatever it is. *)
Lemma blocked_after_failure :
  fst (create_file_handle "read" (1024 ^ 8) 0 []
         (snd (get_content "/" None world0))) = Blocked /\
  fst (readable "/docs" None (snd (get_content "/" None world0))) = Blocked.
Proof. split; reflexivity. Qed.

Lemma facade_releases_lock_on_return_witness :
  FilesystemLock world0 = false /\
  run (F_remove "/docs/a.txt" (Some alice)) world0 =
    (Returned (AValue (VBool true)),
     snd (run (F_remove "/docs/a.txt" (Some alice)) world0)) /\
  FilesystemLock (snd (run (F_remove "/docs/a.txt" (Some alice)) world0)) = false /\
  exists evs,
    trace (snd (run (F_remove "/docs/a.txt" (Some alice)) world0)) =
      trace world0 ++ evs /\
    bracketed evs.
Proof.
  split; [reflexivity|]. split; [reflexivity|].
  apply (facade_releases_lock_on_return
           (F_remove "/docs/a.txt" (Some alice)) world0 _ (AValue (VBool true)));
    reflexivity.
Defined.

Lemma get_content_denied_returns_sentinel_witness :
  FilesystemLock world0 = false /\
  perm_eval (Readable "/hidden" None) alice (tree world0) = false /\
  get_content "/hidden" (Some alice) world0 =
    (Returned VEmptyFileStream,
     mkWorld false (tree world0)
       (trace world0 ++ [EvAcquire; EvPerm (Readable "/hidden" None) alice; EvRelease])).
Proof.
  split; [reflexivity|]. split; [reflexivity|].
  apply (get_content_denied_returns_sentinel "/hidden" alice world0); reflexivity.
Defined.

Lemma denied_mutation_leaves_tree_unchanged_witness :
  is_mutation (F_change_permissions "/docs" [("alice", mkPerm true true true)]
                 true (Some alice)) = true /\
  FilesystemLock world0 = false /\
  refused (F_change_permissions "/docs" [("alice", mkPerm true true true)]
             true (Some alice)) alice (tree world0) = true /\
  exists evs,
    run (F_change_permissions "/docs" [("alice", mkPerm true true true)]
           true (Some alice)) world0 =
      (Returned (AValue (VBool false)),
       mkWorld false (tree world0) (trace world0 ++ evs)) /\
    no_engine_event evs = true.
Proof.
  split; [reflexivity|]. split; [reflexivity|]. split; [reflexivity|].
  apply (denied_mutation_leaves_tree_unchanged
           (F_change_permissions "/docs" [("alice", mkPerm true true true)]
              true (Some alice)) alice world0); reflexivity.
Defined.

Lemma remove_requires_full_subtree_write_witness :
  (perm_eval (Readable "/hidden" None) alice (tree world0) &&
   perm_eval (WritableSelf "/hidden" None) alice (tree world0) &&
   perm_eval (WritableAll "/hidden" None) alice (tree world0) = false /\
   exists evs,
     remove "/hidden" (Some alice) world0 =
       (Returned (VBool false), mkWorld false (tree world0) (trace world0 ++ evs)) /\
     no_engine_event evs = true) /\
  (resolve (segments "/docs") (fs_root (tree world0)) = Some docs /\
   In (docs, b_txt) (links docs) /\
   link_writable (handle alice) docs b_txt = false /\
   link_writable (handle alice) root0 docs = true /\
   link_writable (handle alice) docs a_txt = true /\
   exists evs,
     remove "/docs" (Some alice) world0 =
       (Returned (VBool false), mkWorld false (tree world0) (trace world0 ++ evs)) /\
     no_engine_event evs = true).
Proof.
  split.
  - split; [reflexivity|].
    apply (proj1 remove_requires_full_subtree_write FsState engine "/hidden" alice world0);
      reflexivity.
  - split; [reflexivity|]. split; [simpl; auto|]. split; [reflexivity|].
    split; [reflexivity|]. split; [reflexivity|].
    apply (proj2 remove_requires_full_subtree_write "/docs" alice world0 docs docs b_txt);
      [reflexivity | reflexivity | simpl; auto | reflexivity].
Defined.

Lemma move_requires_four_checks_witness :
  (FilesystemLock world0 = false /\
   perm_eval (Readable "/docs/a.txt" None) alice (tree world0) &&
   perm_eval (WritableAll "/docs/a.txt" None) alice (tree world0) &&
   perm_eval (WritableSelf "/docs/a.txt" None) alice (tree world0) &&
   perm_eval (Writable "/" None) alice (tree world0) = true /\
   move "/docs/a.txt" "/" (Some alice) world0 =
     (ret_result <- invoke (Fs_move_with_handle "/docs/a.txt" "/") ;;
      copy_reown ret_result alice ;;
      release ;;
      ret (VBool (not_None ret_result)))%facade
       (after_checks world0
          [Readable "/docs/a.txt" None; WritableAll "/docs/a.txt" None;
           WritableSelf "/docs/a.txt" None; Writable "/" None] alice)) /\
  (perm_eval (Readable "/docs/b.txt" None) alice (tree world0) &&
   perm_eval (WritableAll "/docs/b.txt" None) alice (tree world0) &&
   perm_eval (WritableSelf "/docs/b.txt" None) alice (tree world0) &&
   perm_eval (Writable "/" None) alice (tree world0) = false /\
   exists evs,
     move "/docs/b.txt" "/" (Some alice) world0 =
       (Returned (VBool false), mkWorld false (tree world0) (trace world0 ++ evs)) /\
     no_engine_event evs = true).
Proof.
  split.
  - split; [reflexivity|]. split; [reflexivity|].
    apply (proj1 (move_requires_four_checks "/docs/a.txt" "/" alice world0 eq_refl)).
    reflexivity.
  - split; [reflexivity|].
    apply (proj2 (move_requires_four_checks "/docs/b.txt" "/" alice world0 eq_refl)).
    reflexivity.
Defined.

Lemma system_caller_skips_every_check_witness :
  FilesystemLock world0 = false /\
  (exists evs,
     trace (snd (run (F_remove "/nowhere" None) world0)) = trace world0 ++ evs /\
     no_perm_event evs = true) /\
  (fst (remove "/docs" None world0) = Returned (VBool true) /\
   resolve (segments "/docs") (fs_root (tree world0)) = Some docs /\
   resolve (segments "/docs") (fs_root (tree (snd (remove "/docs" None world0)))) = None /\
   perm_eval (WritableAll "/docs" None) alice (tree world0) = false) /\
  (resolve (segments "/nowhere") (fs_root (tree world0)) = None /\
   readable "/nowhere" None world0 =
     (Returned true,
      mkWorld false (tree world0) (trace world0 ++ [EvAcquire; EvRelease])) /\
   writable "/nowhere" None world0 =
     (Returned true,
      mkWorld false (tree world0) (trace world0 ++ [EvAcquire; EvRelease])) /\
   writable_self "/nowhere" None world0 =
     (Returned true,
      mkWorld false (tree world0) (trace world0 ++ [EvAcquire; EvRelease]))).
Proof.
  pose proof (@system_caller_skips_every_check FsState engine world0 eq_refl)
    as (Hquiet & _ & _ & _ & _ & Hremove & _ & _ & _ & _ & _ & Hprobes).
  split; [reflexivity|]. split; [|split].
  - apply (Hquiet (F_remove "/nowhere" None)). reflexivity.
  - rewrite (Hremove "/docs"). repeat split.
  - split; [reflexivity|]. apply (Hprobes "/nowhere").
Defined.

(** C8, as the specification words it, fails for the caller without a
    user: the entries come back without any ['writable'] flag, although
    [writable_self] answers [True] for that caller on each of them. *)
Lemma list_directory_system_sets_no_flag :
  fst (list_directory "/docs" None world0) =
    Returned [mkItem "a.txt" 2 false "alice" 10 None;
              mkItem "b.txt" 1 false "bob" 11 None] /\
  fst (writable_self "/docs/a.txt" None world0) = Returned true /\
  fst (writable_self "/docs/b.txt" None world0) = Returned true.
Proof. repeat split; reflexivity. Qed.

Lemma list_directory_filters_and_flags_witness :
  FilesystemLock world0 = false /\
  fs_list_directory "/" (tree world0) =
    (Ok [mkItem "docs" 0 true "alice" 5 None; mkItem "hidden" 0 true "bob" 6 None],
     tree0) /\
  (exists evs,
     list_directory "/" (Some alice) world0 =
       (Returned [mkItem "docs" 0 true "alice" 5 (Some true)],
        mkWorld false tree0 (trace world0 ++ evs))) /\
  list_directory "/" None world0 =
    (Returned [mkItem "docs" 0 true "alice" 5 None; mkItem "hidden" 0 true "bob" 6 None],
     mkWorld false tree0 (trace world0 ++ [EvAcquire; EvList "/"; EvRelease])).
Proof.
  split; [reflexivity|]. split; [reflexivity|].
  pose proof (list_directory_filters_and_flags "/" world0
                [mkItem "docs" 0 true "alice" 5 None; mkItem "hidden" 0 true "bob" 6 None]
                tree0 eq_refl eq_refl) as [Huser Hsys].
  split; [exact (Huser alice) | exact Hsys].
Defined.

Lemma system_creations_are_owned_by_public_witness :
  FilesystemLock world0 = false /\
  In (EvCall (Fs_create_file "/docs" "c.txt" "public"
                (mkFileStream "write" 1 0 [Byte.x41])))
     (trace (snd (create_file "/docs" "c.txt"
                    (mkFileStream "write" 1 0 [Byte.x41]) None world0))) /\
  create_file "/docs" "c.txt" (mkFileStream "write" 1 0 [Byte.x41]) None world0 =
    (Returned (VHandle "/docs/c.txt"),
     snd (create_file "/docs" "c.txt" (mkFileStream "write" 1 0 [Byte.x41]) None world0)) /\
  (exists n,
     resolve (segments "/docs" ++ ["c.txt"])
       (fs_root (tree (snd (create_file "/docs" "c.txt"
                              (mkFileStream "write" 1 0 [Byte.x41]) None world0)))) =
       Some n /\
     n_name n = "c.txt" /\ n_is_directory n = false /\ n_owner n = "public") /\
  create_directory "/docs" "sub" None world0 =
    (Returned (VHandle "/docs/sub"),
     snd (create_directory "/docs" "sub" None world0)) /\
  (exists n,
     resolve (segments "/docs" ++ ["sub"])
       (fs_root (tree (snd (create_directory "/docs" "sub" None world0)))) = Some n /\
     n_name n = "sub" /\ n_is_directory n = true /\ n_owner n = "public").
Proof.
  pose proof system_creations_are_owned_by_public as (Hcall & _ & Hfile & Hdir).
  split; [reflexivity|]. split.
  { rewrite (Hcall FsState engine "/docs" "c.txt"
               (mkFileStream "write" 1 0 [Byte.x41]) world0 eq_refl).
    simpl. auto. }
  split; [reflexivity|]. split.
  - apply (Hfile "/docs" "c.txt" (mkFileStream "write" 1 0 [Byte.x41]) world0 _
             "/docs/c.txt"); reflexivity.
  - split; [reflexivity|].
    apply (Hdir "/docs" "sub" world0 _ "/docs/sub"); reflexivity.
Defined.

(** ** More on [get_file_name] *)

Lemma split_slash_single (x : string) :
  slash_free x = true -> split_slash x = [x].
Proof.
  induction x as [|c rest IH]; simpl; [reflexivity|].
  destruct (Ascii.eqb c slash); simpl; [discriminate|].
  intros H. now rewrite (IH H).
Qed.

Lemma split_slash_slash_free (path : string) :
  Forall (fun seg => slash_free seg = true) (split_slash path).
Proof.
  induction path as [|c rest IH]; simpl.
  - now constructor.
  - destruct (Ascii.eqb c slash) eqn:Hc.
    + now constructor.
    + destruct (split_slash rest) as [|seg segs].
      * constructor; [simpl; now rewrite Hc | constructor].
      * inversion IH; subst. constructor; [simpl; now rewrite Hc | assumption].
Qed.

Lemma list_remove_incl (x : string) (l l' : list string) :
  list_remove x l = Some l' -> incl l' l.
Proof.
  revert l'. induction l as [|y rest IH]; intros l'; simpl; [discriminate|].
  destruct (String.eqb y x).
  - intros Heq. inversion Heq; subst. intros z Hz. now right.
  - destruct (list_remove x rest) as [rest'|]; [|discriminate].
    intros Heq. inversion Heq; subst. intros z [Hz|Hz]; [now left|].
    right. now apply (IH rest').
Qed.

Lemma last_In (d : string) (l : list string) : l <> [] -> In (last l d) l.
Proof.
  induction l as [|y rest IH]; [congruence|]. intros _.
  destruct rest as [|z rest']; [now left|].
  right. apply IH. discriminate.
Qed.

(** The segments of a path with a slash after [parent]: at least two, and
    the last one is the last segment of what follows the slash. *)
Lemma split_slash_after (parent rest d : string) :
  exists seg segs,
    split_slash (parent ++ String slash rest) = seg :: segs /\
    segs <> [] /\
    last segs d = last (split_slash rest) d.
Proof.
  induction parent as [|c parent' IH]; simpl.
  - exists EmptyString, (split_slash rest).
    repeat split. apply split_slash_nonempty.
  - destruct IH as (seg & segs & Hsplit & Hne & Hlast).
    rewrite Hsplit. destruct (Ascii.eqb c slash).
    + exists EmptyString, (seg :: segs). repeat split; [discriminate|].
      rewrite <- Hlast. destruct segs; [congruence|reflexivity].
    + exists (String c seg), segs. repeat split; assumption.
Qed.

(** X4: whatever [get_file_name] returns holds no slash. *)
Theorem get_file_name_slash_free (path x : string) :
  get_file_name path = Returned x -> slash_free x = true.
Proof.
  unfold get_file_name.
  destruct (list_remove EmptyString (split_slash path)) as [l|] eqn:Hrem; [|discriminate].
  intros Heq. assert (Hx : x = last (EmptyString :: l) EmptyString) by congruence.
  clear Heq. subst x.
  assert (Hin : In (last (EmptyString :: l) EmptyString) (EmptyString :: l))
    by (apply last_In; discriminate).
  destruct Hin as [Hin|Hin]; [now rewrite <- Hin|].
  apply list_remove_incl in Hrem.
  pose proof (split_slash_slash_free path) as Hall.
  rewrite Forall_forall in Hall. apply Hall, Hrem, Hin.
Qed.

(** X3: on [/x] and on [/parent/x] with a name [x] that holds no slash,
    [get_file_name] returns [x]; the empty name included, so that a path
    that ends with a slash has the empty file name. *)
Theorem get_file_name_of_joined (parent x : string) :
  slash_free x = true ->
  get_file_name (String slash x) = Returned x /\
  get_file_name (String slash (parent ++ String slash x)) = Returned x.
Proof.
  intros Hx. unfold get_file_name. simpl. split.
  - now rewrite (split_slash_single x Hx).
  - destruct (split_slash_after parent x EmptyString) as (seg & segs & Hsplit & Hne & Hlast).
    rewrite Hsplit. f_equal.
    rewrite (split_slash_single x Hx) in Hlast. simpl in Hlast.
    rewrite <- Hlast. destruct segs; [congruence|reflexivity].
Qed.

Lemma get_file_name_slash_free_witness :
  get_file_name "/docs/a.txt" = Returned "a.txt" /\ slash_free "a.txt" = true.
Proof.
  split; [reflexivity|].
  apply (get_file_name_slash_free "/docs/a.txt" "a.txt"). reflexivity.
Defined.

Lemma get_file_name_of_joined_witness :
  slash_free "a.txt" = true /\
  get_file_name "/a.txt" = Returned "a.txt" /\
  get_file_name "/docs/a.txt" = Returned "a.txt".
Proof.
  split; [reflexivity|].
  apply (get_file_name_of_joined "docs" "a.txt"). reflexivity.
Defined.

(** ** The facade call by call, over any engine *)

Section FacadeCoverage.
Context {Tree : Type} {E : Engine Tree}.

Local Ltac start w H :=
  destruct w as [l t tr]; simpl in H; subst l.

Local Ltac norm_trace := rewrite <- ?app_assoc; cbn [app].

Local Ltac unfold_facade :=
  unfold run, answering, pure_call, create_file_handle, create_file,
    create_directory, copy, move, remove, rename, change_ownership,
    change_permissions, expunge_user_ownership, list_directory, get_content,
    readable, writable, writable_self, reown_if_user, usr_handle_of, invoke,
    list_dir, copy_reown, new_stream, lift_result, denied, perm, acquire,
    release, ret, bind, log;
  cbn.

Local Ltac step :=
  match goal with
  | |- context [perm_eval ?q ?u ?t] => destruct (perm_eval q u t) eqn:?
  | |- context [fs_exec ?c ?t] => destruct (fs_exec c t) as [[?|?] ?] eqn:?
  | |- context [perm_copy_reown ?v ?u ?t] =>
      destruct (perm_copy_reown v u t) as [[?|?] ?] eqn:?
  | |- context [stream_open ?m ?n ?o ?d ?t] =>
      destruct (stream_open m n o d t) as [?|?] eqn:?
  end; cbn.

Lemma replay_app (held : bool) (a b : list event) :
  replay held (a ++ b) =
    match replay held a with
    | Some held' => replay held' b
    | None => None
    end.
Proof.
  revert held. induction a as [|ev rest IH]; intros held; [reflexivity|].
  destruct ev, held; simpl; auto.
Qed.

Lemma replay_probes (evs : list event) :
  forallb is_perm_event evs = true -> replay true evs = Some true.
Proof.
  induction evs as [|ev rest IH]; [reflexivity|].
  destruct ev; simpl; try discriminate. exact IH.
Qed.

(** X5: while the lock is held every function but [get_file_name] waits, and
    nothing has been done when it starts to wait: the tree and the log
    are as they were. *)
Theorem held_lock_blocks (c : facade_call) (w : World Tree) :
  FilesystemLock w = true ->
  (forall path, c <> F_get_file_name path) ->
  run c w = (Blocked, w).
Proof.
  intros H Hc. destruct w as [l t tr]. simpl in H. subst l.
  destruct c; try reflexivity. now elim (Hc path).
Qed.

(** What one call adds to the log fits the lock, and the tree only moves
    when a method of the tree engine was called. *)
Lemma run_log (c : facade_call) (w : World Tree) :
  exists evs,
    trace (snd (run c w)) = trace w ++ evs /\
    replay (FilesystemLock w) evs = Some (FilesystemLock (snd (run c w))) /\
    (no_engine_event evs = true -> tree (snd (run c w)) = tree w).
Proof.
  destruct (FilesystemLock w) eqn:Hl.
  - exists []. rewrite app_nil_r.
    assert (Hsame : snd (run c w) = w).
    { destruct c; try (rewrite held_lock_blocks; [reflexivity|assumption|discriminate]).
      unfold run, answering, pure_call, bind, ret.
      now destruct (get_file_name path). }
    rewrite Hsame, Hl. simpl. auto.
  - start w Hl. cbn [trace tree FilesystemLock].
    destruct c.
    11: {
      unfold run, answering.
      destruct (fs_list_directory path t) as [[items|e] t'] eqn:Hls.
      - destruct (list_directory_run path user (mkWorld false t tr) items t' eq_refl Hls)
          as (evs & Hrun & Hevs & _).
        rewrite (bind_returned _ _ _ _ _ Hrun). cbn.
        eexists. split; [reflexivity|]. split; [|discriminate].
        cbn. rewrite replay_app, (replay_probes _ Hevs). reflexivity.
      - unfold bind.
        rewrite (list_directory_fail path user (mkWorld false t tr) e t' eq_refl Hls).
        cbn. eexists. split; [reflexivity|]. split; [reflexivity|discriminate]. }
    12: {
      exists []. unfold run, answering, pure_call, bind, ret.
      destruct (get_file_name path); cbn; rewrite app_nil_r; auto. }
    all: unfold_facade; try destruct user as [u|]; cbn; repeat step;
      (eexists; split; [norm_trace; reflexivity|];
       split; [reflexivity | intros Hne; try discriminate Hne; reflexivity]).
Qed.

(** X8: over any run of facade calls (returning, raising or waiting), the log
    stays in step with the lock: acquires and releases alternate, every
    probe and every call of the tree engine lies between an acquire and
    the next release, and the lock is in the state the log ends in. *)
Theorem facade_keeps_log_consistent (cs : list facade_call) (w : World Tree) :
  consistent w -> consistent (run_each cs w).
Proof.
  revert w. induction cs as [|c rest IH]; intros w Hw; [exact Hw|].
  apply IH. unfold consistent in *.
  destruct (run_log c w) as (evs & Htr & Hreplay & _).
  now rewrite Htr, replay_app, Hw.
Qed.

(** X10: the eight functions that end in [return ret_result] hand back the
    answer of the tree engine as it is (a [False] of the engine included)
    once the probes are passed, with the owner [user.handle] for the two
    creations made for a user; when the engine raises, so does the
    function, with the lock held. *)
Theorem engine_answer_passed_through
    (c : facade_call) (fc : fs_call) (w : World Tree) :
  FilesystemLock w = false ->
  granted c (tree w) = true ->
  pass_through c = Some fc ->
  run c w =
    match fs_exec fc (tree w) with
    | (Ok v, t') =>
        (Returned (AValue v),
         mkWorld false t'
           (trace w ++ EvAcquire :: probes_of c ++ [EvCall fc; EvRelease]))
    | (Err e, t') =>
        (Raised e,
         mkWorld true t' (trace w ++ EvAcquire :: probes_of c ++ [EvCall fc]))
    end.
Proof.
  intros H Hg Hfc. start w H. cbn [tree trace] in *.
  destruct c; try discriminate Hfc; cbn in Hfc; inversion Hfc; subst; clear Hfc;
    try destruct user as [u|];
    unfold granted, acting_user, refused, probes_of in *; cbn in Hg |- *;
    revert Hg; unfold_facade; repeat step; intros Hg; try discriminate Hg;
    norm_trace; reflexivity.
Qed.

(** X11: [copy] and [move], once the probes are passed: the tree engine copies
    or relinks, then (for a user only) [copy_reown] is called on what the
    engine returned, [None] included, and the answer is the boolean
    [ret_result != None], never the handle.  An exception of either
    collaborator leaves the function with the lock held. *)
Theorem copy_and_move_reown_then_answer
    (c : facade_call) (fc : fs_call) (w : World Tree) :
  FilesystemLock w = false ->
  granted c (tree w) = true ->
  relinking c = Some fc ->
  run c w =
    match fs_exec fc (tree w) with
    | (Err e, t1) =>
        (Raised e,
         mkWorld true t1 (trace w ++ EvAcquire :: probes_of c ++ [EvCall fc]))
    | (Ok v, t1) =>
        match acting_user c with
        | None =>
            (Returned (AValue (VBool (not_None v))),
             mkWorld false t1
               (trace w ++ EvAcquire :: probes_of c ++ [EvCall fc; EvRelease]))
        | Some u =>
            match perm_copy_reown v u t1 with
            | (Ok _, t2) =>
                (Returned (AValue (VBool (not_None v))),
                 mkWorld false t2
                   (trace w ++ EvAcquire :: probes_of c ++
                      [EvCall fc; EvReown v u; EvRelease]))
            | (Err e, t2) =>
                (Raised e,
                 mkWorld true t2
                   (trace w ++ EvAcquire :: probes_of c ++ [EvCall fc; EvReown v u]))
            end
        end
    end.
Proof.
  intros H Hg Hfc. start w H. cbn [tree trace] in *.
  destruct c; try discriminate Hfc; cbn in Hfc; inversion Hfc; subst; clear Hfc;
    try destruct user as [u|];
    unfold granted, acting_user, refused, probes_of in *; cbn in Hg |- *;
    revert Hg; unfold_facade; repeat step; intros Hg; try discriminate Hg;
    norm_trace; reflexivity.
Qed.

(** X12: for a user, the three exported probes answer what the probe of
    [FilesystemPermissions] answers, and leave the tree alone. *)
Theorem exported_probes_answer_as_the_engine
    (path : string) (u : User) (w : World Tree) :
  FilesystemLock w = false ->
  readable path (Some u) w =
    (Returned (perm_eval (Readable path None) u (tree w)),
     mkWorld false (tree w)
       (trace w ++ [EvAcquire; EvPerm (Readable path None) u; EvRelease])) /\
  writable path (Some u) w =
    (Returned (perm_eval (Writable path None) u (tree w)),
     mkWorld false (tree w)
       (trace w ++ [EvAcquire; EvPerm (Writable path None) u; EvRelease])) /\
  writable_self path (Some u) w =
    (Returned (perm_eval (WritableSelf path None) u (tree w)),
     mkWorld false (tree w)
       (trace w ++ [EvAcquire; EvPerm (WritableSelf path None) u; EvRelease])).
Proof.
  intros H. start w H. cbn [tree trace].
  repeat apply conj; unfold_facade; step; norm_trace; reflexivity.
Qed.

(** X13: a refusal ends the call at once: the probes are put in the order of
    the source up to the first one that is refused, no later probe is
    evaluated, the lock is given back and the answer of a denial comes
    out ([False], or [EmptyFileStream] for [get_content]). *)
Theorem denial_stops_at_first_refusal
    (c : facade_call) (u : User) (w : World Tree) :
  acting_user c = Some u ->
  FilesystemLock w = false ->
  refused c u (tree w) = true ->
  run c w =
    (Returned (denial_answer c),
     mkWorld false (tree w)
       (trace w ++
        EvAcquire :: map (fun q => EvPerm q u) (asked u (tree w) (required_checks c)) ++
        [EvRelease])).
Proof.
  intros Hu H Hd. start w H. cbn [tree trace] in *.
  destruct c; try discriminate Hu; cbn in Hu; destruct user as [u'|];
    try discriminate Hu; inversion Hu; subst; clear Hu;
    unfold refused in Hd; cbn in Hd; try discriminate Hd;
    revert Hd; unfold_facade; repeat step; intros Hd; try discriminate Hd;
    norm_trace; reflexivity.
Qed.

(** The loop of [list_directory] for a user, with the probes it puts. *)
Lemma list_directory_loop_probes (path : string) (u : User)
    (items : list Item) (w : World Tree) :
  list_directory_loop path (Some u) items w =
    (Returned (listing path (Some u) (tree w) items),
     mkWorld (FilesystemLock w) (tree w)
       (trace w ++ entry_probes path u (tree w) items)).
Proof.
  revert w. induction items as [|item rest IH]; intros [l t tr].
  - cbn. now rewrite app_nil_r.
  - cbn. destruct (perm_eval (Readable (file_name item) (Some path)) u t) eqn:Hr; cbn.
    + rewrite (bind_returned _ _ _ _ _ (IH _)). cbn. rewrite ?Hr. cbn.
      norm_trace. reflexivity.
    + unfold log. cbn. rewrite IH. cbn. rewrite ?Hr. cbn.
      norm_trace. reflexivity.
Qed.

(** X14: for a user, [list_directory] first asks the tree engine for the
    entries, whatever the rights of the user on the directory itself (no
    probe is put on [path]), then puts one read probe per entry and one
    self-write probe per readable entry, each with [parent=path], and
    returns the readable entries with their flags. *)
Theorem list_directory_probes_entries_only
    (path : string) (u : User) (w : World Tree) (items : list Item) (t' : Tree) :
  FilesystemLock w = false ->
  fs_list_directory path (tree w) = (Ok items, t') ->
  list_directory path (Some u) w =
    (Returned
       (map (fun it =>
               set_writable it
                 (perm_eval (WritableSelf (file_name it) (Some path)) u t'))
            (filter (fun it =>
                       perm_eval (Readable (file_name it) (Some path)) u t')
                    items)),
     mkWorld false t'
       (trace w ++
        EvAcquire :: EvList path :: entry_probes path u t' items ++ [EvRelease])).
Proof.
  intros H Hl. start w H. cbn [tree trace] in *.
  unfold list_directory, list_dir, lift_result, acquire, log.
  cbn. unfold bind at 1. cbn. unfold bind at 1. cbn. rewrite Hl.
  rewrite list_directory_loop_probes. cbn. norm_trace. reflexivity.
Qed.

(** C2: the lock is not given back on every exit path.  Whenever the
    method of [Filesystem] behind a call raises, whatever the engine, the
    exception leaves the function after [acquire] and before [release]:
    the call ends raising, the log holds the acquire, the probes and the
    call, no release, and the lock is still held. *)
Theorem collaborator_exception_leaves_lock_held
    (c : facade_call) (fc : fs_call) (w : World Tree) (e : exn) (t' : Tree) :
  FilesystemLock w = false ->
  granted c (tree w) = true ->
  pass_through c = Some fc \/ relinking c = Some fc ->
  fs_exec fc (tree w) = (Err e, t') ->
  run c w =
    (Raised e,
     mkWorld true t' (trace w ++ EvAcquire :: probes_of c ++ [EvCall fc])).
Proof.
  intros H Hg Hfc Hexec. start w H. cbn [tree trace] in *.
  destruct Hfc as [Hfc|Hfc];
    destruct c; try discriminate Hfc; cbn in Hfc; inversion Hfc; subst; clear Hfc;
    try destruct user as [u|];
    unfold granted, acting_user, refused, probes_of in *; cbn in Hg |- *;
    revert Hg Hexec; unfold_facade; repeat step; intros Hg Hexec;
    try discriminate Hg; try discriminate Hexec;
    inversion Hexec; subst; norm_trace; reflexivity.
Qed.

End FacadeCoverage.

(** ** The facade call by call, on the small tree *)

Lemma held_lock_blocks_witness :
  FilesystemLock (snd (get_content "/" None world0)) = true /\
  run (F_remove "/docs" None) (snd (get_content "/" None world0)) =
    (Blocked, snd (get_content "/" None world0)).
Proof.
  split; [reflexivity|].
  apply (held_lock_blocks (F_remove "/docs" None) (snd (get_content "/" None world0)));
    [reflexivity | discriminate].
Defined.

Lemma facade_never_blocks_witness :
  FilesystemLock world0 = false /\
  fst (run (F_move "/docs/a.txt" "/hidden" (Some alice)) world0) <> Blocked.
Proof.
  split; [reflexivity|].
  apply (facade_never_blocks (F_move "/docs/a.txt" "/hidden" (Some alice)) world0).
  reflexivity.
Defined.

Lemma facade_raise_keeps_lock_witness :
  FilesystemLock world0 = false /\
  run (F_get_content "/" None) world0 =
    (Raised Invalid, snd (run (F_get_content "/" None) world0)) /\
  FilesystemLock (snd (run (F_get_content "/" None) world0)) = true.
Proof.
  split; [reflexivity|]. split; [reflexivity|].
  apply (facade_raise_keeps_lock (F_get_content "/" None) world0 _ Invalid);
    [reflexivity | discriminate | reflexivity].
Defined.

Lemma facade_keeps_log_consistent_witness :
  consistent world0 /\
  consistent
    (run_each [F_remove "/docs/a.txt" (Some alice); F_list_directory "/" (Some alice);
               F_get_content "/" None; F_readable "/docs" None]
       world0).
Proof.
  split; [reflexivity|].
  apply (facade_keeps_log_consistent
           [F_remove "/docs/a.txt" (Some alice); F_list_directory "/" (Some alice);
            F_get_content "/" None; F_readable "/docs" None] world0).
  reflexivity.
Defined.

Lemma engine_answer_passed_through_witness :
  FilesystemLock world0 = false /\
  granted (F_rename "/docs/a.txt" "z.txt" (Some alice)) (tree world0) = true /\
  fst (run (F_rename "/docs/a.txt" "z.txt" (Some alice)) world0) =
    Returned (AValue (VBool true)) /\
  fst (run (F_rename "/docs/a.txt" "b.txt" (Some alice)) world0) =
    Returned (AValue (VBool false)).
Proof.
  split; [reflexivity|]. split; [reflexivity|]. split.
  - rewrite (engine_answer_passed_through
               (F_rename "/docs/a.txt" "z.txt" (Some alice))
               (Fs_rename "/docs/a.txt" "z.txt") world0); reflexivity.
  - rewrite (engine_answer_passed_through
               (F_rename "/docs/a.txt" "b.txt" (Some alice))
               (Fs_rename "/docs/a.txt" "b.txt") world0); reflexivity.
Defined.

Lemma copy_and_move_reown_then_answer_witness :
  FilesystemLock world0 = false /\
  granted (F_copy "/docs/a.txt" "/" (Some alice)) (tree world0) = true /\
  fst (run (F_copy "/docs/a.txt" "/" (Some alice)) world0) =
    Returned (AValue (VBool true)) /\
  In (EvReown VNone alice)
     (trace (snd (run (F_copy "/docs/a.txt" "/docs" (Some alice)) world0))) /\
  fst (run (F_copy "/docs/a.txt" "/docs" (Some alice)) world0) =
    Returned (AValue (VBool false)).
Proof.
  split; [reflexivity|]. split; [reflexivity|]. split; [|split].
  - rewrite (copy_and_move_reown_then_answer
               (F_copy "/docs/a.txt" "/" (Some alice))
               (Fs_copy_with_handle "/docs/a.txt" "/" None) world0); reflexivity.
  - rewrite (copy_and_move_reown_then_answer
               (F_copy "/docs/a.txt" "/docs" (Some alice))
               (Fs_copy_with_handle "/docs/a.txt" "/docs" None) world0);
      [simpl; auto 10 | reflexivity | reflexivity | reflexivity].
  - rewrite (copy_and_move_reown_then_answer
               (F_copy "/docs/a.txt" "/docs" (Some alice))
               (Fs_copy_with_handle "/docs/a.txt" "/docs" None) world0); reflexivity.
Defined.

Lemma exported_probes_answer_as_the_engine_witness :
  FilesystemLock world0 = false /\
  fst (readable "/docs/b.txt" (Some alice) world0) = Returned true /\
  fst (writable "/docs/b.txt" (Some alice) world0) = Returned false /\
  fst (writable_self "/docs/b.txt" (Some alice) world0) = Returned false.
Proof.
  split; [reflexivity|].
  destruct (exported_probes_answer_as_the_engine "/docs/b.txt" alice world0 eq_refl)
    as (Hr & Hw & Hs).
  rewrite Hr, Hw, Hs. repeat split.
Defined.

Lemma denial_stops_at_first_refusal_witness :
  acting_user (F_move "/docs/b.txt" "/" (Some alice)) = Some alice /\
  FilesystemLock world0 = false /\
  refused (F_move "/docs/b.txt" "/" (Some alice)) alice (tree world0) = true /\
  run (F_move "/docs/b.txt" "/" (Some alice)) world0 =
    (Returned (AValue (VBool false)),
     mkWorld false tree0
       [EvAcquire; EvPerm (Readable "/docs/b.txt" None) alice;
        EvPerm (WritableAll "/docs/b.txt" None) alice; EvRelease]).
Proof.
  split; [reflexivity|]. split; [reflexivity|]. split; [reflexivity|].
  rewrite (denial_stops_at_first_refusal (F_move "/docs/b.txt" "/" (Some alice))
             alice world0); reflexivity.
Defined.

Lemma list_directory_probes_entries_only_witness :
  FilesystemLock world0 = false /\
  list_directory "/" (Some alice) world0 =
    (Returned [mkItem "docs" 0 true "alice" 5 (Some true)],
     mkWorld false tree0
       [EvAcquire; EvList "/";
        EvPerm (Readable "docs" (Some "/")) alice;
        EvPerm (WritableSelf "docs" (Some "/")) alice;
        EvPerm (Readable "hidden" (Some "/")) alice;
        EvRelease]).
Proof.
  split; [reflexivity|].
  rewrite (list_directory_probes_entries_only "/" alice world0
             [mkItem "docs" 0 true "alice" 5 None; mkItem "hidden" 0 true "bob" 6 None]
             tree0); reflexivity.
Defined.

Lemma collaborator_exception_leaves_lock_held_witness :
  FilesystemLock world0 = false /\
  granted (F_get_content "/" None) (tree world0) = true /\
  fs_exec (Fs_get_content "/") (tree world0) = (Err Invalid, tree world0) /\
  run (F_get_content "/" None) world0 =
    (Raised Invalid,
     mkWorld true (tree world0) [EvAcquire; EvCall (Fs_get_content "/")]) /\
  FilesystemLock (snd (run (F_get_content "/" None) world0)) = true.
Proof.
  split; [reflexivity|]. split; [reflexivity|]. split; [reflexivity|].
  assert (Hrun : run (F_get_content "/" None) world0 =
                   (Raised Invalid,
                    mkWorld true (tree world0) [EvAcquire; EvCall (Fs_get_content "/")])).
  { apply (collaborator_exception_leaves_lock_held
             (F_get_content "/" None) (Fs_get_content "/") world0 Invalid (tree world0));
      [reflexivity | reflexivity | left; reflexivity | reflexivity]. }
  split; [exact Hrun | now rewrite Hrun].
Defined.
